(** * runsc mitigate: the SMT mitigation command

    A shallow embedding of [runsc/cmd/mitigate.go] (package [cmd]) together
    with the part of the operating system it talks to and the part of
    package [runsc/mitigate] it calls.

    Layout:
    - the Go values the command manipulates (errors built by [fmt.Errorf],
      exit statuses, open flags);
    - the operating system: files, [os.OpenFile], [File.Write],
      [ioutil.ReadFile] and the log, as state passing over a [World] that
      also records every call that leaves the command;
    - the command itself, function by function;
    - package [runsc/mitigate] (parser and CPU set) and the mock CPU
      descriptions;
    - the vocabulary of the properties, then the properties. *)

From Stdlib Require Import ZArith String Ascii List Lia.
From stdpp Require Import base option list gmap strings pretty.

Local Open Scope string_scope.
Local Open Scope Z_scope.
Local Open Scope list_scope.

(** ** Go values *)

(** The errno values the model distinguishes. *)
Inductive Errno : Type :=
| ENOENT | EACCES | EEXIST | EISDIR | EINVAL | EBUSY | ENOSPC | EROFS | EBADF.

(** A Go [error].  [PathError] is what package [os] returns; [fmt_Errorf]
    keeps the format and the arguments of a [fmt.Errorf] call as written at
    the call site, so that what a message is made of can be read back. *)
Inductive error : Type :=
| PathError (Op Path : string) (Err : Errno)
| fmt_Errorf (format : string) (args : list fmtArg)
with fmtArg : Type :=
| ArgS (s : string)
| ArgV (e : error).

(** Go's [(T, error)] results. *)
Definition result (A : Type) : Type := (A + error)%type.




(** [subcommands.ExitStatus]. *)
Inductive ExitStatus : Type := ExitSuccess | ExitFailure | ExitUsageError.

#[global] Instance ExitStatus_eq_dec : EqDecision ExitStatus.
Proof. solve_decision. Defined.

Definition exit_code (s : ExitStatus) : Z :=
  match s with ExitSuccess => 0 | ExitFailure => 1 | ExitUsageError => 2 end.

(** A double quote, for format strings that contain one. *)
Definition dq : string := String (ascii_of_nat 34) EmptyString.

(** Flags of [os.OpenFile] (Linux values). *)
Definition O_RDONLY : Z := 0.
Definition O_WRONLY : Z := 1.
Definition O_RDWR : Z := 2.
Definition O_CREATE : Z := 64.
Definition O_EXCL : Z := 128.
Definition O_TRUNC : Z := 512.
Definition O_APPEND : Z := 1024.

Definition has_flag (flag bit : Z) : bool := negb (Z.land flag bit =? 0).
Definition access_mode (flag : Z) : Z := Z.land flag 3.
Definition wants_write (flag : Z) : bool :=
  (access_mode flag =? O_WRONLY) || (access_mode flag =? O_RDWR).
Definition wants_read (flag : Z) : bool :=
  (access_mode flag =? O_RDONLY) || (access_mode flag =? O_RDWR).

(** ** The operating system *)

(** A file: its bytes, its permission bits, and the error the kernel gives
    to a write on it, if it refuses writes (a device attribute rejecting a
    value, a full disk). *)
Record FileNode : Type := mkFile {
  fdata : string;
  fmode : Z;
  fwerr : option Errno
}.

(** The process owns its files: bit 7 (0200) lets it write, bit 8 (0400)
    lets it read. *)
Definition owner_w (f : FileNode) : bool := Z.testbit (fmode f) 7.
Definition owner_r (f : FileNode) : bool := Z.testbit (fmode f) 8.

(** The mode a file is created with: the permission argument of the open
    without the bits of the file mode creation mask of the process. *)
Definition create_mode (perm mask : Z) : Z := Z.land perm (Z.lnot mask).

(** Every call that leaves the command, in the order it is made. *)
Inductive Event : Type :=
| EvReadFile (path : string)
| EvOpenFile (path : string) (flag perm : Z)
| EvWrite (path : string) (b : string)
| EvNewCPUSet (data : string)
| EvIsVulnerable
| EvString
| EvPostMitigate
| EvInfof (format : string) (args : list fmtArg)
| EvWarningf (format : string) (args : list fmtArg)
| EvErrorf (format : string) (args : list fmtArg)
| EvUsage.

(** The world: the files by path, the paths at which the system refuses to
    create a file (missing or read-only directory) with the errno it gives,
    the file mode creation mask of the process, whether the process runs as
    root, and the calls made so far. *)
Record World : Type := mkWorld {
  files : gmap string FileNode;
  nocreate : gmap string Errno;
  umask : Z;
  root : bool;
  trace : list Event
}.

Definition emit (e : Event) (w : World) : World :=
  mkWorld (files w) (nocreate w) (umask w) (root w) (trace w ++ [e]).

Definition set_file (name : string) (f : FileNode) (w : World) : World :=
  mkWorld (<[name := f]> (files w)) (nocreate w) (umask w) (root w) (trace w).

(** Permission checks: root passes them whatever the bits of the file. *)
Definition may_write (w : World) (f : FileNode) : bool := root w || owner_w f.
Definition may_read (w : World) (f : FileNode) : bool := root w || owner_r f.

Arguments may_write : simpl never.
Arguments may_read : simpl never.

(** State passing over the world. *)
Definition M (A : Type) : Type := World -> A * World.

Definition ret {A : Type} (a : A) : M A := fun w => (a, w).

Definition bind {A B : Type} (m : M A) (k : A -> M B) : M B :=
  fun w => let (a, w') := m w in k a w'.

Notation "x <- m ;; k" := (bind m (fun x => k))
  (at level 100, m at next level, right associativity).
Notation "m ;;; k" := (bind m (fun _ => k))
  (at level 100, right associativity).

Definition call (e : Event) : M unit := fun w => (tt, emit e w).

(** An open file, [*os.File]: its name, the flags it was opened with and
    the offset of the next write. *)
Record File : Type := mkHandle {
  hname : string;
  hflag : Z;
  hoff : nat
}.

(** [os.OpenFile(name, flag, perm)]. *)
Definition os_OpenFile (name : string) (flag perm : Z) : M (result File) :=
  call (EvOpenFile name flag perm) ;;; fun w =>
  match files w !! name with
  | Some f =>
      if has_flag flag O_CREATE && has_flag flag O_EXCL then
        (inr (PathError "open" name EEXIST), w)
      else if wants_write flag && negb (may_write w f) then
        (inr (PathError "open" name EACCES), w)
      else if wants_read flag && negb (may_read w f) then
        (inr (PathError "open" name EACCES), w)
      else if has_flag flag O_TRUNC && wants_write flag then
        (inl (mkHandle name flag 0),
         set_file name (mkFile "" (fmode f) (fwerr f)) w)
      else (inl (mkHandle name flag 0), w)
  | None =>
      if has_flag flag O_CREATE then
        match nocreate w !! name with
        | Some e => (inr (PathError "open" name e), w)
        | None => (inl (mkHandle name flag 0),
                   set_file name (mkFile "" (create_mode perm (umask w)) None)
                            w)
        end
      else (inr (PathError "open" name ENOENT), w)
  end.

(** The bytes of a file after [b] is written at offset [off]: the bytes
    before the offset stay (padded with NUL when the offset is past the
    end), then [b], then whatever the old contents had beyond. *)
Fixpoint pad (n : nat) : string :=
  match n with O => "" | S n' => String zero (pad n') end.

Definition string_take (n : nat) (s : string) : string := substring 0 n s.
Definition string_drop (n : nat) (s : string) : string :=
  substring n (String.length s - n) s.

Definition write_at (off : nat) (b old : string) : string :=
  string_take off old +:+ pad (off - String.length old) +:+ b
  +:+ string_drop (off + String.length b) old.

(** [f.Write(b)]: returns the number of bytes written and an error. *)
Definition File_Write (f : File) (b : string) : M (Z * option error) :=
  call (EvWrite (hname f) b) ;;; fun w =>
  if negb (wants_write (hflag f)) then
    ((0, Some (PathError "write" (hname f) EBADF)), w)
  else
    match files w !! hname f with
    | None => ((0, Some (PathError "write" (hname f) EBADF)), w)
    | Some n =>
        match fwerr n with
        | Some e => ((0, Some (PathError "write" (hname f) e)), w)
        | None =>
            let off := if has_flag (hflag f) O_APPEND
                       then String.length (fdata n) else hoff f in
            ((Z.of_nat (String.length b), None),
             set_file (hname f)
               (mkFile (write_at off b (fdata n)) (fmode n) (fwerr n)) w)
        end
    end.

(** [ioutil.ReadFile(path)]. *)
Definition ioutil_ReadFile (path : string) : M (result string) :=
  call (EvReadFile path) ;;; fun w =>
  match files w !! path with
  | None => (inr (PathError "open" path ENOENT), w)
  | Some f =>
      if may_read w f then (inl (fdata f), w)
      else (inr (PathError "open" path EACCES), w)
  end.

(** [log.Infof], [log.Warningf]. *)
Definition log_Infof (format : string) (args : list fmtArg) : M unit :=
  call (EvInfof format args).
Definition log_Warningf (format : string) (args : list fmtArg) : M unit :=
  call (EvWarningf format args).

(** ** The command: runsc/cmd/mitigate.go *)

(** cpuInfo is the path used to parse CPU info. *)
Definition cpuInfo : string := "/proc/cpuinfo".
(** Path to shutdown a CPU. *)
Definition smtPath : string := "/sys/devices/system/cpu/smt/control".

(** [Mitigate] implements the "mitigate" command. *)
Record Mitigate : Type := mkMitigate {
  dryRun : bool;    (* run the command without changing the system *)
  reverse : bool;   (* reverse mitigate by turning on all CPU cores *)
  data : string     (* extra data for post mitigate operations *)
}.

(** What the command uses from outside its file: type [mitigate.CPUSet]
    with its constructor and methods, and the [postMitigate] hook of
    [Mitigate], which is declared in another file of package [cmd]. *)
Class MitigatePkg : Type := {
  CPUSet : Type;
  NewCPUSet : string -> result CPUSet;
  IsVulnerable : CPUSet -> bool;
  CPUSet_String : CPUSet -> string;
  postMitigate : Mitigate -> CPUSet -> option error
}.

(** The flag set after parsing: what is left are the positional arguments. *)
Record FlagSet : Type := mkFlagSet { positional : list string }.
Definition NArg (f : FlagSet) : Z := Z.of_nat (length (positional f)).
Definition Usage (f : FlagSet) : M unit := call EvUsage.

(** Modelled from the spec: [Errorf] of package [cmd] is missing; it
    reports the message and gives the operation-failure exit status
    ("operation-failure error carrying a descriptive message"). *)
Definition Errorf (format : string) (args : list fmtArg) : M ExitStatus :=
  call (EvErrorf format args) ;;; ret ExitFailure.

(** The permission argument 0644 (octal): rw-r--r--. *)
Definition perm_0644 : Z := 6 * 64 + 4 * 8 + 4.

(** [doEnableDisable(filePath, action)]. *)
Definition doEnableDisable (filePath action : string) : M (option error) :=
  r <- os_OpenFile filePath (Z.lor O_WRONLY O_CREATE) perm_0644 ;;
  match r with
  | inr err =>
      ret (Some (fmt_Errorf "failed to open file %s: %v"
                            [ArgS smtPath; ArgV err]))
  | inl f =>
      r' <- File_Write f action ;;
      match snd r' with
      | Some err =>
          ret (Some (fmt_Errorf ("failed to write " +:+ dq +:+ "%s" +:+ dq
                                 +:+ " to %s: %v")
                                [ArgS action; ArgS smtPath; ArgV err]))
      | None => ret None
      end
  end.

Section Command.
Context `{P : MitigatePkg}.

(** [getCPUSet(path)] gets the current CPUSet. *)
Definition getCPUSet (path : string) : M (result CPUSet) :=
  r <- ioutil_ReadFile path ;;
  match r with
  | inr err =>
      ret (inr (fmt_Errorf "failed to read %s: %w" [ArgS path; ArgV err]))
  | inl data => call (EvNewCPUSet data) ;;; ret (NewCPUSet data)
  end.

(** [doMitigate] turns off SMT by writing "off" to the control file. *)
Definition doMitigate (filePath : string) (cpuSet : CPUSet)
  : M (option error) :=
  call EvIsVulnerable ;;;
  if negb (IsVulnerable cpuSet) then ret None
  else
    r <- doEnableDisable filePath "off" ;;
    match r with
    | Some err => ret (Some (fmt_Errorf "disable: %v" [ArgV err]))
    | None => ret None
    end.

(** [doReverse] turns on SMT by writing "on" to the control file. *)
Definition doReverse (filePath : string) (_ : CPUSet) : M (option error) :=
  r <- doEnableDisable filePath "on" ;;
  match r with
  | Some err => ret (Some (fmt_Errorf "enable: %v" [ArgV err]))
  | None => ret None
  end.

(** The action [doExecute] selects: [doMitigate], replaced by [doReverse]
    when [reverse] is set, replaced by a function that does nothing when
    [dryRun] is set. *)
Definition select_action (m : Mitigate)
  : string -> CPUSet -> M (option error) :=
  let action := doMitigate in
  let action := if reverse m then doReverse else action in
  let action := if dryRun m then (fun _ _ => ret None) else action in
  action.

(** [cpuSet.String()], as called for a log line. *)
Definition call_String (cpuSet : CPUSet) : M string :=
  call EvString ;;; ret (CPUSet_String cpuSet).

(** [m.postMitigate(afterSet)]. *)
Definition call_postMitigate (m : Mitigate) (afterSet : CPUSet)
  : M (option error) :=
  call EvPostMitigate ;;; ret (postMitigate m afterSet).

(** [m.doExecute(cpuInfoPath, smtFilePath)]. *)
Definition doExecute (m : Mitigate) (cpuInfoPath smtFilePath : string)
  : M ExitStatus :=
  r <- getCPUSet cpuInfoPath ;;
  match r with
  | inr err => Errorf "Get before CPUSet failed: %v" [ArgV err]
  | inl beforeSet =>
      s <- call_String beforeSet ;;
      log_Infof "CPUs before: %s" [ArgS s] ;;;
      let action := select_action m in
      a <- action smtFilePath beforeSet ;;
      match a with
      | Some err => Errorf "Action failed: %v" [ArgV err]
      | None =>
          r' <- getCPUSet cpuInfoPath ;;
          match r' with
          | inr err => Errorf "Get after CPUSet failed: %v" [ArgV err]
          | inl afterSet =>
              s' <- call_String afterSet ;;
              log_Infof "CPUs after: %s" [ArgS s'] ;;;
              p <- call_postMitigate m afterSet ;;
              match p with
              | Some err => Errorf "Post Mitigate failed: %v" [ArgV err]
              | None => ret ExitSuccess
              end
          end
      end
  end.

(** [m.Execute(ctx, f, args...)]; [GOARCH] is [runtime.GOARCH], the
    architecture the binary was built for. *)
Definition Execute (GOARCH : string) (m : Mitigate) (f : FlagSet)
  : M ExitStatus :=
  if String.eqb GOARCH "arm64" || String.eqb GOARCH "arm" then
    log_Warningf "As ARM is not affected by MDS, mitigate does not support" [] ;;;
    ret ExitFailure
  else if negb (NArg f =? 0) then
    Usage f ;;;
    ret ExitUsageError
  else doExecute m cpuInfo smtPath.

End Command.

(** ** Statements about the run

    Definitions used to state the properties of [doExecute]; they are not
    part of the command. *)

Section RunVocabulary.
Context `{P : MitigatePkg}.

(** What [doExecute] does once the action step has succeeded. *)
Definition after_steps (m : Mitigate) (cpuInfoPath : string) : M ExitStatus :=
  r' <- getCPUSet cpuInfoPath ;;
  match r' with
  | inr err => Errorf "Get after CPUSet failed: %v" [ArgV err]
  | inl afterSet =>
      s' <- call_String afterSet ;;
      log_Infof "CPUs after: %s" [ArgS s'] ;;;
      p <- call_postMitigate m afterSet ;;
      match p with
      | Some err => Errorf "Post Mitigate failed: %v" [ArgV err]
      | None => ret ExitSuccess
      end
  end.

(** The world in which the action step starts: the before set has been
    read and its summary logged. *)
Definition before_action (beforeSet : CPUSet) (w1 : World) : World :=
  emit (EvInfof "CPUs before: %s" [ArgS (CPUSet_String beforeSet)])
       (emit EvString w1).

(** The calls that can follow a successful action step, after the second
    read of the topology file: the read failed and is reported; or the text
    was parsed, the parse failed and is reported; or the set was parsed and
    logged and the post-mitigate check ran, its failure being reported. *)
Inductive after_action (m : Mitigate) : list Event -> ExitStatus -> Prop :=
| after_read_failed err :
    after_action m [EvErrorf "Get after CPUSet failed: %v" [ArgV err]]
                 ExitFailure
| after_parse_failed data err :
    NewCPUSet data = inr err ->
    after_action m [EvNewCPUSet data;
                    EvErrorf "Get after CPUSet failed: %v" [ArgV err]]
                 ExitFailure
| after_check_failed data afterSet err :
    NewCPUSet data = inl afterSet ->
    postMitigate m afterSet = Some err ->
    after_action m [EvNewCPUSet data; EvString;
                    EvInfof "CPUs after: %s" [ArgS (CPUSet_String afterSet)];
                    EvPostMitigate;
                    EvErrorf "Post Mitigate failed: %v" [ArgV err]]
                 ExitFailure
| after_check_passed data afterSet :
    NewCPUSet data = inl afterSet ->
    postMitigate m afterSet = None ->
    after_action m [EvNewCPUSet data; EvString;
                    EvInfof "CPUs after: %s" [ArgS (CPUSet_String afterSet)];
                    EvPostMitigate]
                 ExitSuccess.

(** The dry-run design the specification describes, for comparison with
    [select_action]: the decision logic of the two actions is kept and only
    the write step they end in is swapped.  [doMitigate_with] and
    [doReverse_with] are [doMitigate] and [doReverse] with the write step
    as a parameter. *)
Definition doMitigate_with (write : string -> string -> M (option error))
    (filePath : string) (cpuSet : CPUSet) : M (option error) :=
  call EvIsVulnerable ;;;
  if negb (IsVulnerable cpuSet) then ret None
  else
    r <- write filePath "off" ;;
    match r with
    | Some err => ret (Some (fmt_Errorf "disable: %v" [ArgV err]))
    | None => ret None
    end.

Definition doReverse_with (write : string -> string -> M (option error))
    (filePath : string) (_ : CPUSet) : M (option error) :=
  r <- write filePath "on" ;;
  match r with
  | Some err => ret (Some (fmt_Errorf "enable: %v" [ArgV err]))
  | None => ret None
  end.

Definition no_write (_ _ : string) : M (option error) := ret None.

Definition select_action_swapping_write (m : Mitigate)
  : string -> CPUSet -> M (option error) :=
  let write := if dryRun m then no_write else doEnableDisable in
  if reverse m then doReverse_with write else doMitigate_with write.

(** What ends a run: the report of an error, or the second read of the
    topology file and what follows it. *)
Definition ending (m : Mitigate) (cpuInfoPath : string)
    (rest : list Event) (st : ExitStatus) : Prop :=
  (st = ExitFailure /\ exists format args, rest = [EvErrorf format args])
  \/ (exists tail, rest = EvReadFile cpuInfoPath :: tail
                   /\ after_action m tail st).

End RunVocabulary.

(** ** Package runsc/mitigate: topology parser and CPU set

    The source of this package is missing; the module follows the
    specification (sections 3, 4.1 and 4.2), with the key names and the two
    error formats as they appear in the mock CPU descriptions and in the
    test of the command. *)
Module Topology.

(** Modelled from the spec: the record type of package runsc/mitigate is
    missing; LogicalProcessor is "one per-thread record parsed from the raw
    description", with the fields of spec section 3. *)
Record LogicalProcessor : Type := mkCPU {
  processor : N;
  vendorID : string;
  cpuFamily : N;
  model : N;
  modelName : string;
  physicalID : N;
  coreID : N;
  bugs : gset string
}.

Definition emptyCPU : LogicalProcessor := mkCPU 0 "" 0 0 "" 0 0 ∅.

(** Modelled from the spec: the table of required keys is missing; these
    are the keys of spec section 3 in their required order, spelled as in
    the mock CPU descriptions. *)
Definition requiredKeys : list string :=
  ["processor"; "vendor_id"; "cpu family"; "model"; "model name";
   "physical id"; "core id"; "bugs"].

(** Modelled from the spec: the table of bug tags is missing; the spec
    names the classes microarchitectural data sampling and L1 terminal
    fault as cross-thread exploitable. *)
Definition crossThreadBugs : list string := ["mds"; "l1tf"].

(** Modelled from the spec: the error values of the parser are missing;
    "no cpus found" carries the input, a key mismatch carries the key
    expected next and the text that violated the expectation. *)
Definition ErrNoCPUs (data : string) : error :=
  fmt_Errorf "no cpus found for: %q" [ArgS data].
Definition ErrMatchKey (key context : string) : error :=
  fmt_Errorf "failed to match key %q: %q" [ArgS key; ArgS context].

Definition nl : string := String (ascii_of_nat 10) EmptyString.

(** The lines of a text. *)
Fixpoint lines_go (cur s : string) : list string :=
  match s with
  | EmptyString => [String.rev cur]
  | String c s' =>
      if Ascii.eqb c (ascii_of_nat 10) then String.rev cur :: lines_go "" s'
      else lines_go (String c cur) s'
  end.
Definition lines (s : string) : list string := lines_go "" s.

Fixpoint ltrim (s : string) : string :=
  match s with
  | EmptyString => ""
  | String c s' => if Ascii.is_space c then ltrim s' else s
  end.
Definition trim (s : string) : string :=
  String.rev (ltrim (String.rev (ltrim s))).
Definition is_blank (l : string) : bool := String.eqb (ltrim l) "".

(** A line [key<whitespace>: value]. *)
Fixpoint split_colon (cur s : string) : option (string * string) :=
  match s with
  | EmptyString => None
  | String c s' =>
      if Ascii.eqb c ":" then Some (String.rev cur, s')
      else split_colon (String c cur) s'
  end.
Definition key_value (l : string) : option (string * string) :=
  match split_colon "" l with
  | Some (k, v) => Some (trim k, trim v)
  | None => None
  end.

(** The required key a line carries, if it carries one. *)
Definition required_key (l : string) : option (string * string) :=
  match key_value l with
  | Some (k, v) => if bool_decide (k ∈ requiredKeys) then Some (k, v) else None
  | None => None
  end.

Fixpoint parse_N_go (acc : N) (s : string) : option N :=
  match s with
  | EmptyString => Some acc
  | String c s' =>
      match Ascii.is_nat c with
      | Some d => parse_N_go (acc * 10 + N.of_nat d)%N s'
      | None => None
      end
  end.
Definition parse_N (s : string) : option N :=
  match s with EmptyString => None | _ => parse_N_go 0%N s end.

(** Store the value of a required key in the record being built. *)
Definition set_field (k v : string) (p : LogicalProcessor)
  : option LogicalProcessor :=
  let '(mkCPU pr ve fa mo mn ph co bu) := p in
  if String.eqb k "processor" then
    n ← parse_N v; Some (mkCPU n ve fa mo mn ph co bu)
  else if String.eqb k "vendor_id" then Some (mkCPU pr v fa mo mn ph co bu)
  else if String.eqb k "cpu family" then
    n ← parse_N v; Some (mkCPU pr ve n mo mn ph co bu)
  else if String.eqb k "model" then
    n ← parse_N v; Some (mkCPU pr ve fa n mn ph co bu)
  else if String.eqb k "model name" then Some (mkCPU pr ve fa mo v ph co bu)
  else if String.eqb k "physical id" then
    n ← parse_N v; Some (mkCPU pr ve fa mo mn n co bu)
  else if String.eqb k "core id" then
    n ← parse_N v; Some (mkCPU pr ve fa mo mn ph n bu)
  else if String.eqb k "bugs" then
    Some (mkCPU pr ve fa mo mn ph co (list_to_set (String.words v)))
  else None.

(** The record accumulator of the current block: the record so far, the
    required keys still expected, and the raw lines seen for it. *)
Record Pending : Type := mkPending {
  pcpu : LogicalProcessor;
  pexpected : list string;
  pctx : string
}.

Definition fresh : Pending := mkPending emptyCPU requiredKeys "".

(** End of a block or of the input: a complete record is kept, an
    incomplete one is a failure naming the key expected next. *)
Definition close (st : option Pending) (out : list LogicalProcessor)
  : result (list LogicalProcessor) :=
  match st with
  | None => inl out
  | Some pd =>
      match pexpected pd with
      | [] => inl (pcpu pd :: out)
      | e :: _ => inr (ErrMatchKey e (pctx pd))
      end
  end.

(** A line carrying required key [k] meets the accumulator. *)
Definition accept (l k v : string) (pd : Pending) : result Pending :=
  match pexpected pd with
  | [] => inr (ErrMatchKey k l)
  | e :: rest =>
      if String.eqb k e then
        match set_field k v (pcpu pd) with
        | Some p' => inl (mkPending p' rest (pctx pd +:+ l +:+ nl))
        | None => inr (ErrMatchKey e l)
        end
      else inr (ErrMatchKey e l)
  end.

(** Modelled from the spec: the parser of package runsc/mitigate is
    missing; this is the Topology Parser of spec section 4.1 as a walk over
    the lines.  A blank line ends the block; a required key must
    be the one expected next; once all required keys of the record are
    there the next required key begins a new record; other lines are
    ignored.  Records come out most recent first. *)
Fixpoint parse_lines (ls : list string) (st : option Pending)
    (out : list LogicalProcessor) : result (list LogicalProcessor) :=
  match ls with
  | [] => close st out
  | l :: ls' =>
      if is_blank l then
        match close st out with
        | inr e => inr e
        | inl out' => parse_lines ls' None out'
        end
      else
        match required_key l with
        | None => parse_lines ls' st out
        | Some (k, v) =>
            match st with
            | None =>
                match accept l k v fresh with
                | inr e => inr e
                | inl pd' => parse_lines ls' (Some pd') out
                end
            | Some pd =>
                match pexpected pd with
                | [] =>
                    match accept l k v fresh with
                    | inr e => inr e
                    | inl pd' => parse_lines ls' (Some pd') (pcpu pd :: out)
                    end
                | _ :: _ =>
                    match accept l k v pd with
                    | inr e => inr e
                    | inl pd' => parse_lines ls' (Some pd') out
                    end
                end
            end
        end
  end.

(** Modelled from the spec: the entry point of the missing parser, with
    its contract "on empty or entirely unparsable input: fails ... rather
    than returning an empty sequence". *)
Definition parseProcessors (data : string) : result (list LogicalProcessor) :=
  match parse_lines (lines data) None [] with
  | inr e => inr e
  | inl [] => inr (ErrNoCPUs data)
  | inl out => inl (rev out)
  end.

(** Modelled from the spec: type [mitigate.CPUSet] is missing; a CpuSet is
    "an ordered collection of LogicalProcessor" in input order. *)
Definition CPUSet : Type := list LogicalProcessor.

(** Modelled from the spec: [mitigate.NewCPUSet] is missing; construction
    "fails (propagating the Parser's failure) if parsing fails or yields
    zero processors". *)
Definition NewCPUSet (data : string) : result CPUSet :=
  match parseProcessors data with
  | inr e => inr e
  | inl [] => inr (ErrNoCPUs data)
  | inl cpus => inl cpus
  end.

Definition NumCPUs (c : CPUSet) : nat := length c.

(** Modelled from the spec: the derived attributes of the missing type;
    ThreadsPerCore is the size of the largest core group (processors
    sharing a package id and a core id). *)
Definition same_core (p q : LogicalProcessor) : bool :=
  (physicalID p =? physicalID q)%N && (coreID p =? coreID q)%N.
Definition core_size (c : CPUSet) (p : LogicalProcessor) : nat :=
  length (filter (fun q => same_core p q = true) c).
Definition ThreadsPerCore (c : CPUSet) : nat :=
  foldr Nat.max O (map (core_size c) c).

(** Modelled from the spec: method [IsVulnerable] of the missing type,
    "true if any processor's bug-tag set contains a tag from a fixed list
    ... AND ThreadsPerCore > 1". *)
Definition has_cross_thread_bug (p : LogicalProcessor) : bool :=
  existsb (fun t => bool_decide (t ∈ bugs p)) crossThreadBugs.
Definition IsVulnerable (c : CPUSet) : bool :=
  existsb has_cross_thread_bug c && (1 <? ThreadsPerCore c)%nat.

(** Modelled from the spec: the first condition of [IsVulnerable] alone,
    "any processor's bug-tag set contains a tag from a fixed list".  The
    test of the command (TestExecute, case CascadeLake4) wants "off"
    written for a description with one thread per core that lists these
    tags, which the second condition, ThreadsPerCore > 1, rules out; this is
    the classification under which that case passes. *)
Definition IsVulnerable_by_tags (c : CPUSet) : bool :=
  existsb has_cross_thread_bug c.

End Topology.

Module TopologyString.
Import Topology.

(** Modelled from the spec: method [String] of the missing type, the
    range-notation summary of the processor ordinals, package and core
    groups in ascending id order, contiguous runs collapsed to [a-b],
    comma-separated. *)
Definition group_le (q p : LogicalProcessor) : bool :=
  (physicalID q <? physicalID p)%N
  || ((physicalID q =? physicalID p)%N && (coreID q <=? coreID p)%N).

Fixpoint insert_by (p : LogicalProcessor) (l : list LogicalProcessor)
  : list LogicalProcessor :=
  match l with
  | [] => [p]
  | q :: l' => if group_le q p then q :: insert_by p l' else p :: q :: l'
  end.

Definition ordered (c : CPUSet) : list LogicalProcessor :=
  foldl (fun acc p => insert_by p acc) [] c.

Fixpoint ranges_go (lo hi : N) (l : list N) : list (N * N) :=
  match l with
  | [] => [(lo, hi)]
  | n :: l' =>
      if (n =? hi + 1)%N then ranges_go lo n l'
      else (lo, hi) :: ranges_go n n l'
  end.

Definition ranges (l : list N) : list (N * N) :=
  match l with [] => [] | n :: l' => ranges_go n n l' end.

Definition show_range (r : N * N) : string :=
  if (fst r =? snd r)%N then pretty (fst r)
  else pretty (fst r) +:+ "-" +:+ pretty (snd r).

Definition CPUSet_String (c : CPUSet) : string :=
  String.concat "," (map show_range (ranges (map processor (ordered c)))).

End TopologyString.

(** ** Package runsc/mitigate/mock: CPU descriptions for tests *)
Module Mock.

(** CPU represents data from CPUs that will be mitigated. *)
Record CPU : Type := mkCPU {
  Name : string;
  VendorID : string;
  Family : Z;
  Model : Z;
  ModelName : string;
  Bugs : string;
  PhysicalCores : Z;
  Cores : Z;
  ThreadsPerCore : Z;
  IsVulnerable : bool
}.

(** CascadeLake4 is a four core Intel CascadeLake machine. *)
Definition CascadeLake4 : CPU :=
  mkCPU "CascadeLake" "GenuineIntel" 6 85 "Intel(R) Xeon(R) CPU"
        "spectre_v1 spectre_v2 spec_store_bypass mds swapgs taa" 1 2 2 true.

(** AMD2 is an two core AMD machine. *)
Definition AMD2 : CPU :=
  mkCPU "AMD" "AuthenticAMD" 23 49 "AMD EPYC 7B12"
        "sysret_ss_attrs spectre_v1 spectre_v2 spec_store_bypass" 1 1 2 false.

Definition tab : string := String (ascii_of_nat 9) EmptyString.
Definition nl : string := String (ascii_of_nat 10) EmptyString.

(** One instance of the template of [doMakeCPUString]. *)
Definition entry (tc : CPU) (processorNum i j k : Z) : string :=
  "processor" +:+ tab +:+ ": " +:+ pretty processorNum +:+ nl +:+
  "vendor_id" +:+ tab +:+ ": " +:+ VendorID tc +:+ nl +:+
  "cpu family" +:+ tab +:+ ": " +:+ pretty (Family tc) +:+ nl +:+
  "model" +:+ tab +:+ tab +:+ ": " +:+ pretty (Model tc) +:+ nl +:+
  "model name" +:+ tab +:+ ": " +:+ ModelName tc +:+ nl +:+
  "physical id  : " +:+ pretty i +:+ nl +:+
  "core id" +:+ tab +:+ tab +:+ ": " +:+ pretty j +:+ nl +:+
  "cpu cores" +:+ tab +:+ ": " +:+ pretty k +:+ nl +:+
  "bugs" +:+ tab +:+ tab +:+ ": " +:+ Bugs tc +:+ nl +:+
  nl.

(** [for x := 0; x < n; x++]. *)
Definition upto (n : Z) : list Z := map Z.of_nat (seq 0 (Z.to_nat n)).

Definition doMakeCPUString (tc : CPU) (physicalCores cores threadsPerCore : Z)
  : string :=
  String.concat ""
    (i ← upto physicalCores; j ← upto cores; k ← upto threadsPerCore;
     [entry tc ((i * cores + j) * threadsPerCore + k) i j k]).

(** MakeCPUString makes a string formated like /proc/cpuinfo. *)
Definition MakeCPUString (tc : CPU) : string :=
  doMakeCPUString tc (PhysicalCores tc) (Cores tc) (ThreadsPerCore tc).

(** MakeMitigatedCPUString returns a /proc/cpuinfo for the machine
    assuming a mitigate function was successful. *)
Definition MakeMitigatedCPUString (tc : CPU) : string :=
  if IsVulnerable tc then doMakeCPUString tc (PhysicalCores tc) (Cores tc) 1
  else MakeCPUString tc.

(** Go's [int] is [intSize] bits wide, 32 or 64 with the platform, and its
    arithmetic wraps around. *)
Definition wrap_int (intSize z : Z) : Z :=
  (z + 2 ^ (intSize - 1)) mod 2 ^ intSize - 2 ^ (intSize - 1).

Definition int_mul (intSize a b : Z) : Z := wrap_int intSize (a * b).

(** NumCPUs returns the number of CPUs for this CPU. *)
Definition NumCPUs (intSize : Z) (tc : CPU) : Z :=
  int_mul intSize (int_mul intSize (PhysicalCores tc) (Cores tc))
          (ThreadsPerCore tc).

End Mock.

(** Modelled from the spec: the post-mitigate hook is missing; with no set
    of acceptable patterns defined it accepts every CPU set.  [specPkg] is
    the command linked with the package as specified. *)
Definition specPkg : MitigatePkg := {|
  CPUSet := Topology.CPUSet;
  NewCPUSet := Topology.NewCPUSet;
  IsVulnerable := Topology.IsVulnerable;
  CPUSet_String := TopologyString.CPUSet_String;
  postMitigate := fun _ _ => None
|}.

(** The command linked with the package as the test of the command needs
    it: [specPkg] with the classification by bug tags alone. *)
Definition testedPkg : MitigatePkg := {|
  CPUSet := Topology.CPUSet;
  NewCPUSet := Topology.NewCPUSet;
  IsVulnerable := Topology.IsVulnerable_by_tags;
  CPUSet_String := TopologyString.CPUSet_String;
  postMitigate := fun _ _ => None
|}.

(** * Vocabulary of the properties *)

(** The flags [doEnableDisable] opens the control file with. *)
Definition open_flags : Z := Z.lor O_WRONLY O_CREATE.

(** The error values [doEnableDisable] builds. *)
Definition open_failure (cause : error) : error :=
  fmt_Errorf "failed to open file %s: %v" [ArgS smtPath; ArgV cause].
Definition write_failure (action : string) (cause : error) : error :=
  fmt_Errorf ("failed to write " +:+ dq +:+ "%s" +:+ dq +:+ " to %s: %v")
             [ArgS action; ArgS smtPath; ArgV cause].

(** Whether the system lets the process open [path] for writing with the
    create flag: an existing file must be writable by the process, a
    missing one must be creatable. *)
Definition openable (path : string) (w : World) : bool :=
  match files w !! path with
  | Some f => may_write w f
  | None => bool_decide (nocreate w !! path = None)
  end.

(** The mode of a file [doEnableDisable] creates. *)
Definition created_mode (w : World) : Z := create_mode perm_0644 (umask w).

(** The bytes the file at [path] holds, none when it does not exist. *)
Definition contents (path : string) (w : World) : option string :=
  fdata <$> files w !! path.

Definition old_bytes (path : string) (w : World) : string :=
  default "" (contents path w).

(** The files once [action] has been written at the start of the file at
    [path]: the file keeps its mode, or gets the mode of a created file
    when it did not exist, and every other file is as it was. *)
Definition files_written (path action : string) (w : World)
  : gmap string FileNode :=
  <[path := mkFile (write_at 0 action (old_bytes path w))
                   (match files w !! path with
                    | Some f => fmode f
                    | None => created_mode w
                    end) None]> (files w).

(** The text [msg] contains the text [s]. *)
Definition mentions (s msg : string) : Prop :=
  exists pre post : string, msg = pre +:+ s +:+ post.

(** How [doMitigate] and [doReverse] wrap a failure of the write. *)
Definition wrap (format : string) (r : option error * World)
  : option error * World :=
  (match r.1 with
   | Some err => Some (fmt_Errorf format [ArgV err])
   | None => None
   end, r.2).

(** Calls that touch the control file. *)
Definition touches (e : Event) : bool :=
  match e with
  | EvOpenFile _ _ _ | EvWrite _ _ => true
  | _ => false
  end.

(** A step from [w] to [w'] that writes nothing: same files, and the calls
    added to the trace neither open a file for writing nor write. *)
Definition quiet_step (w w' : World) : Prop :=
  files w' = files w /\ nocreate w' = nocreate w
  /\ exists evs, trace w' = trace w ++ evs
                 /\ Forall (fun e => touches e = false) evs.

Definition quiet {A : Type} (c : M A) : Prop :=
  forall w, quiet_step w (c w).2.

Definition arm_warning : Event :=
  EvWarningf "As ARM is not affected by MDS, mitigate does not support" [].

(** No line of the text carries a required key: nothing in it can be
    parsed as part of a processor record. *)
Definition unparsable (data : string) : bool :=
  forallb (fun l => bool_decide (Topology.required_key l = None))
          (Topology.lines data).

(** A test host, after [doExecuteTest]: two temporary files, the topology
    text and the control file, both owned by the process, which does not
    run as root and has the usual mask 022. *)
Definition test_cpuinfo : string := "/tmp/cpuInfo.txt".
Definition test_smt : string := "/tmp/smt.txt".
Definition perm_0600 : Z := 6 * 64.
Definition perm_0444 : Z := 4 * 64 + 4 * 8 + 4.
Definition mask_022 : Z := 2 * 8 + 2.
Definition mask_027 : Z := 2 * 8 + 7.
Definition mask_222 : Z := 2 * 64 + 2 * 8 + 2.

Definition host (cpuText smtText : string) (smtMode : Z) : World :=
  mkWorld {[ test_cpuinfo := mkFile cpuText perm_0600 None;
             test_smt := mkFile smtText smtMode None ]} ∅ mask_022 false [].

(** A world with the topology file only, for a process with mask [mask]. *)
Definition host_without_control (cpuText : string) (mask : Z) : World :=
  mkWorld {[ test_cpuinfo := mkFile cpuText perm_0600 None ]} ∅ mask false [].

(** A world where the control file does not exist and cannot be created,
    as in a device file system that lacks the attribute. *)
Definition host_refusing_control (cpuText : string) : World :=
  mkWorld {[ test_cpuinfo := mkFile cpuText perm_0600 None ]}
          {[ test_smt := EACCES ]} mask_022 false [].

(** The test host with the process running as root. *)
Definition as_root (w : World) : World :=
  mkWorld (files w) (nocreate w) (umask w) true (trace w).

Definition parsed (data : string) : Topology.CPUSet :=
  match Topology.NewCPUSet data with inl c => c | inr _ => [] end.

Definition vulnerable_text : string := Mock.MakeCPUString Mock.CascadeLake4.
Definition mitigated_text : string :=
  Mock.MakeMitigatedCPUString Mock.CascadeLake4.
Definition safe_text : string := Mock.MakeCPUString Mock.AMD2.

(** [doExecuteTest] of the test of the command: run [doExecute] on the two
    temporary files, the control file holding "on"; the exit status must be
    the wanted one and, when that is success, the control file must then
    hold the wanted bytes. *)
Definition doExecuteTest `{P : MitigatePkg} (m : Mitigate)
    (data wantSmt : string) (wantErr : ExitStatus) : bool :=
  let (subError, w') :=
    doExecute m test_cpuinfo test_smt (host data "on" perm_0600) in
  if bool_decide (subError = wantErr) then
    if bool_decide (wantErr = ExitSuccess)
    then bool_decide (contents test_smt w' = Some wantSmt)
    else true
  else false.

(** The texts of the case Partial of [TestExecute]: a complete record
    followed by one that lacks its "core id" line. *)
Definition partial : string :=
  String.concat Mock.nl
    ["processor       : 1";
     "vendor_id       : AuthenticAMD";
     "cpu family      : 23";
     "model           : 49";
     "model name      : AMD EPYC 7B12";
     "physical id     : 0";
     "bugs         : sysret_ss_attrs spectre_v1 spectre_v2 spec_store_bypass";
     "power management:";
     ""].

Definition partial_data : string :=
  String.concat Mock.nl
    ["processor       : 0";
     "vendor_id       : AuthenticAMD";
     "cpu family      : 23";
     "model           : 49";
     "model name      : AMD EPYC 7B12";
     "physical id     : 0";
     "core id         : 0";
     "cpu cores       : 1";
     "bugs            : sysret_ss_attrs spectre_v1 spectre_v2 spec_store_bypass";
     "power management::84";
     "";
     ""] +:+ partial.

Definition forward : Mitigate := mkMitigate false false "".
Definition backward : Mitigate := mkMitigate false true "".
Definition dry_forward : Mitigate := mkMitigate true false "".
Definition dry_backward : Mitigate := mkMitigate true true "".

(** ** Vocabulary of the further properties *)

(** Whether the system lets the write to [path] through: the open succeeds
    and the file does not refuse the write. *)
Definition accepts (path : string) (w : World) : bool :=
  match files w !! path with
  | Some f => may_write w f && bool_decide (fwerr f = None)
  | None => bool_decide (nocreate w !! path = None)
  end.

(** Whether the process can open the file at [path] for writing again once
    it is there: an existing file is as good as it was, a file the process
    creates gets the mode 0644 less its mask and must be writable by it
    with that mode. *)
Definition reopens (path : string) (w : World) : bool :=
  match files w !! path with
  | Some _ => true
  | None => may_write w (mkFile "" (created_mode w) None)
  end.

(** A step that leaves every file but the one at [path] as it was, and
    does not change where files may be created. *)
Definition frame_step (path : string) (w w' : World) : Prop :=
  (forall p : string, p <> path -> files w' !! p = files w !! p)
  /\ nocreate w' = nocreate w.

Definition frames {A : Type} (path : string) (c : M A) : Prop :=
  forall w, frame_step path w (c w).2.

(** The calls of one write to the control file: the open, then the write
    when the open went through. *)
Definition control_events (path action : string) (opens : bool)
  : list Event :=
  EvOpenFile path open_flags perm_0644
    :: (if opens then [EvWrite path action] else []).

(** Whether the selected action has to write: not in dry-run, and either
    reversing or facing a vulnerable set. *)
Definition must_write (m : Mitigate) (vulnerable : bool) : bool :=
  negb (dryRun m) && (reverse m || vulnerable).

(** The calls of the action step. *)
Definition action_events (m : Mitigate) (path : string)
    (vulnerable opens : bool) : list Event :=
  if dryRun m then []
  else if reverse m then control_events path "on" opens
  else EvIsVulnerable
       :: (if vulnerable then control_events path "off" opens else []).

(** The calls of [getCPUSet]: the read, then the parse when the file could
    be read. *)
Definition read_events (path : string) (w : World) : list Event :=
  EvReadFile path
    :: match files w !! path with
       | Some f => if may_read w f then [EvNewCPUSet (fdata f)] else []
       | None => []
       end.

Definition is_open (e : Event) : bool :=
  match e with EvOpenFile _ _ _ => true | _ => false end.
Definition is_write (e : Event) : bool :=
  match e with EvWrite _ _ => true | _ => false end.
Definition is_read (e : Event) : bool :=
  match e with EvReadFile _ => true | _ => false end.
Definition is_errorf (e : Event) : bool :=
  match e with EvErrorf _ _ => true | _ => false end.

(** How many of the calls satisfy [f]. *)
Fixpoint count (f : Event -> bool) (l : list Event) : nat :=
  match l with
  | [] => O
  | e :: l' => ((if f e then 1 else 0) + count f l')%nat
  end.

(** A call that names a file names the right one: opens and writes go to
    [smtFilePath], reads to [cpuInfoPath]. *)
Definition on_its_file (cpuInfoPath smtFilePath : string) (e : Event) : Prop :=
  match e with
  | EvOpenFile p _ _ | EvWrite p _ => p = smtFilePath
  | EvReadFile p => p = cpuInfoPath
  | _ => True
  end.

(** What the control file of the test holds after a run: the value the
    action had to write, and the "on" it was given when it had none to
    write. *)
Definition expected_smt (m : Mitigate) (vulnerable : bool) : string :=
  if must_write m vulnerable then (if reverse m then "on" else "off")
  else "on".

(** The entry of a mock description for processor number [n], on a
    machine with [cores] cores per package and [threads] threads per core:
    the package, the core and the thread are read back from the number. *)
Definition entry_at (tc : Mock.CPU) (cores threads : Z) (n : Z) : string :=
  Mock.entry tc n (n / threads / cores) ((n / threads) mod cores)
             (n mod threads).

(** * Properties *)

(** ** Running the primitives *)

Ltac run := unfold bind, call, ret, log_Infof, log_Warningf; simpl.

Lemma may_write_emit e w f : may_write (emit e w) f = may_write w f.
Proof. reflexivity. Qed.

Lemma may_read_emit e w f : may_read (emit e w) f = may_read w f.
Proof. reflexivity. Qed.

Lemma os_OpenFile_existing name f w :
  files w !! name = Some f ->
  os_OpenFile name open_flags perm_0644 w =
    (if may_write w f then inl (mkHandle name open_flags 0)
     else inr (PathError "open" name EACCES),
     emit (EvOpenFile name open_flags perm_0644) w).
Proof.
  intros Hf. unfold os_OpenFile. run. rewrite Hf, may_write_emit.
  destruct (may_write w f); reflexivity.
Qed.

Lemma os_OpenFile_missing name w :
  files w !! name = None ->
  os_OpenFile name open_flags perm_0644 w =
    match nocreate w !! name with
    | Some e => (inr (PathError "open" name e),
                 emit (EvOpenFile name open_flags perm_0644) w)
    | None => (inl (mkHandle name open_flags 0),
               set_file name (mkFile "" (created_mode w) None)
                 (emit (EvOpenFile name open_flags perm_0644) w))
    end.
Proof.
  intros Hf. unfold os_OpenFile. run. rewrite Hf.
  destruct (nocreate w !! name); reflexivity.
Qed.

Lemma File_Write_fresh name b f w :
  files w !! name = Some f ->
  File_Write (mkHandle name open_flags 0) b w =
    match fwerr f with
    | Some e => ((0, Some (PathError "write" name e)), emit (EvWrite name b) w)
    | None =>
        ((Z.of_nat (String.length b), None),
         set_file name (mkFile (write_at 0 b (fdata f)) (fmode f) None)
           (emit (EvWrite name b) w))
    end.
Proof.
  intros Hf. unfold File_Write. run. rewrite Hf.
  destruct (fwerr f) eqn:E; reflexivity.
Qed.

(** [doEnableDisable] case by case. *)
Lemma doEnableDisable_denied filePath action f w :
  files w !! filePath = Some f -> may_write w f = false ->
  doEnableDisable filePath action w =
    (Some (open_failure (PathError "open" filePath EACCES)),
     emit (EvOpenFile filePath open_flags perm_0644) w).
Proof.
  intros Hf Hw. unfold doEnableDisable, bind.
  fold open_flags. rewrite (os_OpenFile_existing _ _ _ Hf), Hw. reflexivity.
Qed.

Lemma doEnableDisable_existing filePath action f w :
  files w !! filePath = Some f -> may_write w f = true ->
  doEnableDisable filePath action w =
    let w1 := emit (EvWrite filePath action)
                (emit (EvOpenFile filePath open_flags perm_0644) w) in
    match fwerr f with
    | Some e =>
        (Some (write_failure action (PathError "write" filePath e)), w1)
    | None =>
        (None,
         set_file filePath
           (mkFile (write_at 0 action (fdata f)) (fmode f) None) w1)
    end.
Proof.
  intros Hf Hw. unfold doEnableDisable, bind.
  fold open_flags. rewrite (os_OpenFile_existing _ _ _ Hf), Hw.
  rewrite (File_Write_fresh _ _ f) by exact Hf.
  destruct (fwerr f); reflexivity.
Qed.

Lemma doEnableDisable_uncreatable filePath action e w :
  files w !! filePath = None -> nocreate w !! filePath = Some e ->
  doEnableDisable filePath action w =
    (Some (open_failure (PathError "open" filePath e)),
     emit (EvOpenFile filePath open_flags perm_0644) w).
Proof.
  intros Hf Hn. unfold doEnableDisable, bind.
  fold open_flags. rewrite (os_OpenFile_missing _ _ Hf), Hn. reflexivity.
Qed.

Lemma doEnableDisable_created filePath action w :
  files w !! filePath = None -> nocreate w !! filePath = None ->
  doEnableDisable filePath action w =
    (None,
     set_file filePath (mkFile (write_at 0 action "") (created_mode w) None)
       (emit (EvWrite filePath action)
          (set_file filePath (mkFile "" (created_mode w) None)
             (emit (EvOpenFile filePath open_flags perm_0644) w)))).
Proof.
  intros Hf Hn. unfold doEnableDisable, bind.
  fold open_flags. rewrite (os_OpenFile_missing _ _ Hf), Hn.
  rewrite (File_Write_fresh _ _ (mkFile "" (created_mode w) None)).
  - reflexivity.
  - simpl. apply lookup_insert_eq.
Qed.

(** The process attributes are those of the start. *)
Lemma doEnableDisable_process filePath action w :
  umask (doEnableDisable filePath action w).2 = umask w
  /\ root (doEnableDisable filePath action w).2 = root w.
Proof.
  destruct (files w !! filePath) as [f|] eqn:Hf.
  - destruct (may_write w f) eqn:Hw.
    + rewrite (doEnableDisable_existing _ _ _ _ Hf Hw). simpl.
      destruct (fwerr f); split; reflexivity.
    + rewrite (doEnableDisable_denied _ _ _ _ Hf Hw). split; reflexivity.
  - destruct (nocreate w !! filePath) as [e|] eqn:Hn.
    + rewrite (doEnableDisable_uncreatable _ _ _ _ Hf Hn). split; reflexivity.
    + rewrite (doEnableDisable_created _ _ _ Hf Hn). split; reflexivity.
Qed.

(** ** Bytes left in the file by a write at offset 0 *)

Lemma substring_none n s : substring n 0 s = "".
Proof.
  revert n. induction s as [|c s IH]; intros [|n]; simpl; auto.
Qed.

Lemma write_at_start b old :
  write_at 0 b old = b +:+ string_drop (String.length b) old.
Proof.
  unfold write_at, string_take. rewrite substring_none. reflexivity.
Qed.

Lemma string_drop_all n s : (String.length s <= n)%nat -> string_drop n s = "".
Proof.
  intros H. unfold string_drop.
  replace (String.length s - n)%nat with O by lia. apply substring_none.
Qed.

Lemma append_empty_r s : s +:+ "" = s.
Proof.
  induction s as [|c s IH]; [reflexivity|].
  change (String c (s +:+ "") = String c s). now rewrite IH.
Qed.

Lemma write_at_start_covers b old :
  (String.length old <= String.length b)%nat -> write_at 0 b old = b.
Proof.
  intros H. rewrite write_at_start, string_drop_all by exact H.
  apply append_empty_r.
Qed.

(** What a successful [doEnableDisable] leaves at [filePath]. *)
Lemma doEnableDisable_success_contents filePath action w w' :
  doEnableDisable filePath action w = (None, w') ->
  contents filePath w' =
    Some (action +:+ string_drop (String.length action) (old_bytes filePath w)).
Proof.
  unfold contents, old_bytes, contents.
  destruct (files w !! filePath) as [f|] eqn:Hf.
  - destruct (may_write w f) eqn:Hw.
    + rewrite (doEnableDisable_existing _ _ _ _ Hf Hw). simpl.
      destruct (fwerr f); intros H; inversion H; subst; simpl.
      rewrite lookup_insert_eq. simpl. now rewrite write_at_start.
    + rewrite (doEnableDisable_denied _ _ _ _ Hf Hw). discriminate.
  - destruct (nocreate w !! filePath) as [e|] eqn:Hn.
    + rewrite (doEnableDisable_uncreatable _ _ _ _ Hf Hn). discriminate.
    + rewrite (doEnableDisable_created _ _ _ Hf Hn).
      intros H; inversion H; subst; simpl.
      rewrite lookup_insert_eq. simpl. now rewrite write_at_start.
Qed.

(** The calls [doEnableDisable] makes: the open, then the write when the
    open went through. *)
Lemma doEnableDisable_trace filePath action w :
  trace (doEnableDisable filePath action w).2 =
    trace w ++ EvOpenFile filePath open_flags perm_0644
      :: (if openable filePath w then [EvWrite filePath action] else []).
Proof.
  unfold openable.
  destruct (files w !! filePath) as [f|] eqn:Hf.
  - destruct (may_write w f) eqn:Hw.
    + rewrite (doEnableDisable_existing _ _ _ _ Hf Hw). simpl.
      destruct (fwerr f); simpl; now rewrite <- app_assoc.
    + now rewrite (doEnableDisable_denied _ _ _ _ Hf Hw).
  - destruct (nocreate w !! filePath) as [e|] eqn:Hn.
    + now rewrite (doEnableDisable_uncreatable _ _ _ _ Hf Hn).
    + rewrite (doEnableDisable_created _ _ _ Hf Hn). simpl.
      now rewrite <- app_assoc.
Qed.

(** ** Strings *)

Lemma string_drop_zero s : string_drop 0 s = s.
Proof.
  unfold string_drop. rewrite Nat.sub_0_r.
  induction s as [|c s IH]; [reflexivity|]. simpl. now rewrite IH.
Qed.

Lemma string_drop_cons n c s :
  string_drop (S n) (String c s) = string_drop n s.
Proof. reflexivity. Qed.

Lemma string_drop_append a t : string_drop (String.length a) (a +:+ t) = t.
Proof.
  induction a as [|c a IH]; [apply string_drop_zero|].
  change (String c a +:+ t) with (String c (a +:+ t)).
  simpl String.length. now rewrite string_drop_cons.
Qed.

Lemma string_drop_drop n k s :
  string_drop n (string_drop k s) = string_drop (k + n) s.
Proof.
  revert s. induction k as [|k IH]; intros s.
  - now rewrite string_drop_zero.
  - destruct s as [|c s].
    + rewrite !string_drop_all by (simpl; lia). reflexivity.
    + rewrite string_drop_cons. simpl plus. rewrite string_drop_cons. apply IH.
Qed.

Lemma length_append a b :
  String.length (a +:+ b) = (String.length a + String.length b)%nat.
Proof.
  induction a as [|c a IH]; [reflexivity|].
  change (String c a +:+ b) with (String c (a +:+ b)). simpl. now rewrite IH.
Qed.

Lemma length_string_drop n s :
  String.length (string_drop n s) = (String.length s - n)%nat.
Proof.
  revert n. induction s as [|c s IH]; intros n.
  - rewrite string_drop_all by (simpl; lia). reflexivity.
  - destruct n as [|n]; [now rewrite string_drop_zero|].
    rewrite string_drop_cons, IH. reflexivity.
Qed.

Lemma string_drop_append_short a t n :
  (String.length a <= n)%nat ->
  string_drop n (a +:+ t) = string_drop (n - String.length a) t.
Proof.
  intros H.
  replace n with (String.length a + (n - String.length a))%nat at 1 by lia.
  rewrite <- string_drop_drop. now rewrite string_drop_append.
Qed.

Lemma string_drop_append_long n a t :
  (n <= String.length a)%nat ->
  string_drop n (a +:+ t) = string_drop n a +:+ t.
Proof.
  revert a. induction n as [|n IH]; intros a H.
  - now rewrite !string_drop_zero.
  - destruct a as [|c a]; [simpl in H; lia|].
    change (String c a +:+ t) with (String c (a +:+ t)).
    rewrite !string_drop_cons. apply IH. simpl in H. lia.
Qed.

(** ** When the write goes through and what it leaves *)

(** The write goes through exactly when the system accepts it. *)
Lemma doEnableDisable_result filePath action w :
  (doEnableDisable filePath action w).1 = None <-> accepts filePath w = true.
Proof.
  unfold accepts.
  destruct (files w !! filePath) as [f|] eqn:Hf.
  - destruct (may_write w f) eqn:Hw.
    + rewrite (doEnableDisable_existing _ _ _ _ Hf Hw). simpl.
      destruct (fwerr f); simpl; split; intros H; try discriminate; reflexivity.
    + rewrite (doEnableDisable_denied _ _ _ _ Hf Hw). simpl.
      split; discriminate.
  - destruct (nocreate w !! filePath) as [e|] eqn:Hn.
    + rewrite (doEnableDisable_uncreatable _ _ _ _ Hf Hn). simpl.
      split; discriminate.
    + rewrite (doEnableDisable_created _ _ _ Hf Hn). simpl. split; reflexivity.
Qed.

(** The files after [doEnableDisable]: untouched when the write did not go
    through; otherwise the file at [filePath] holds the action string over
    the start of its old bytes, with the permission bits it had, or those
    of the call less the mask of the process when it was created. *)
Lemma doEnableDisable_files filePath action w :
  files (doEnableDisable filePath action w).2 =
    if accepts filePath w then files_written filePath action w else files w.
Proof.
  unfold files_written, accepts, old_bytes, contents.
  destruct (files w !! filePath) as [f|] eqn:Hf.
  - destruct (may_write w f) eqn:Hw.
    + rewrite (doEnableDisable_existing _ _ _ _ Hf Hw). simpl.
      destruct (fwerr f); reflexivity.
    + now rewrite (doEnableDisable_denied _ _ _ _ Hf Hw).
  - destruct (nocreate w !! filePath) as [e|] eqn:Hn.
    + now rewrite (doEnableDisable_uncreatable _ _ _ _ Hf Hn).
    + rewrite (doEnableDisable_created _ _ _ Hf Hn). simpl.
      apply insert_insert_eq.
Qed.

Lemma doEnableDisable_nocreate filePath action w :
  nocreate (doEnableDisable filePath action w).2 = nocreate w.
Proof.
  destruct (files w !! filePath) as [f|] eqn:Hf.
  - destruct (may_write w f) eqn:Hw.
    + rewrite (doEnableDisable_existing _ _ _ _ Hf Hw). simpl.
      destruct (fwerr f); reflexivity.
    + now rewrite (doEnableDisable_denied _ _ _ _ Hf Hw).
  - destruct (nocreate w !! filePath) as [e|] eqn:Hn.
    + now rewrite (doEnableDisable_uncreatable _ _ _ _ Hf Hn).
    + now rewrite (doEnableDisable_created _ _ _ Hf Hn).
Qed.

Lemma frames_doEnableDisable filePath action :
  frames filePath (doEnableDisable filePath action).
Proof.
  intros w. split; [|apply doEnableDisable_nocreate].
  intros p Hp. rewrite doEnableDisable_files.
  destruct (accepts filePath w); [|reflexivity].
  unfold files_written. now rewrite lookup_insert_ne by congruence.
Qed.

Lemma openable_emit p e w : openable p (emit e w) = openable p w.
Proof. reflexivity. Qed.

Lemma accepts_emit p e w : accepts p (emit e w) = accepts p w.
Proof. reflexivity. Qed.

Lemma accepts_openable p w : accepts p w = true -> openable p w = true.
Proof.
  unfold accepts, openable. destruct (files w !! p) as [f|]; [|auto].
  intros H. now apply andb_prop in H as [H _].
Qed.

(** ** The two actions *)

Section ActionProperties.
Context {P : MitigatePkg}.

Lemma doMitigate_safe filePath cpuSet w :
  IsVulnerable cpuSet = false ->
  doMitigate filePath cpuSet w = (None, emit EvIsVulnerable w).
Proof. intros H. unfold doMitigate. run. now rewrite H. Qed.

Lemma doMitigate_vulnerable filePath cpuSet w :
  IsVulnerable cpuSet = true ->
  doMitigate filePath cpuSet w =
    wrap "disable: %v" (doEnableDisable filePath "off" (emit EvIsVulnerable w)).
Proof.
  intros H. unfold doMitigate, wrap. run. rewrite H. simpl.
  destruct (doEnableDisable filePath "off" (emit EvIsVulnerable w)) as [[e|] w'];
    reflexivity.
Qed.

Lemma doReverse_run filePath cpuSet w :
  doReverse filePath cpuSet w =
    wrap "enable: %v" (doEnableDisable filePath "on" w).
Proof.
  unfold doReverse, wrap. run.
  destruct (doEnableDisable filePath "on" w) as [[e|] w']; reflexivity.
Qed.

(** C2. The reverse action writes the literal "on" to the control file
    whatever CPU set it is given.  It never looks at the set: its result
    and the world it leaves are the same for every set.  It opens the
    control file and, once the open went through, hands "on" to the write;
    it succeeds exactly when the system lets that write through, and then
    the file holds "on" over the start of what it held and every other
    file is as it was; when the system does not, the files are as they were
    and the error of the write comes back under the label "enable". *)
Theorem doReverse_writes_on_unconditionally
    (filePath : string) (cpuSet : CPUSet) (w : World) :
  let r := doReverse filePath cpuSet w in
  (forall cpuSet' : CPUSet, doReverse filePath cpuSet' w = r)
  /\ trace r.2 = trace w ++ control_events filePath "on" (openable filePath w)
  /\ (r.1 = None <-> accepts filePath w = true)
  /\ files r.2 = (if accepts filePath w then files_written filePath "on" w
                  else files w)
  /\ (accepts filePath w = true ->
      contents filePath r.2
      = Some ("on" +:+ string_drop 2 (old_bytes filePath w)))
  /\ (forall err : error,
        r.1 = Some err ->
        exists cause : error,
          (doEnableDisable filePath "on" w).1 = Some cause
          /\ err = fmt_Errorf "enable: %v" [ArgV cause]).
Proof.
  cbv zeta. rewrite doReverse_run.
  split; [intros cpuSet'; apply doReverse_run|].
  unfold wrap. simpl.
  split; [apply doEnableDisable_trace|].
  pose proof (doEnableDisable_result filePath "on" w) as R.
  split; [|split; [apply doEnableDisable_files|split]].
  - destruct (doEnableDisable filePath "on" w).1 as [e|]; [|exact R].
    split; [discriminate|]. intros H. apply R in H. discriminate H.
  - intros A. apply R in A.
    destruct (doEnableDisable filePath "on" w) as [r w'] eqn:E.
    simpl in A. subst r.
    exact (doEnableDisable_success_contents _ _ _ _ E).
  - intros err H.
    destruct (doEnableDisable filePath "on" w).1 as [e|]; [|discriminate].
    exists e. split; [reflexivity|]. now inversion H.
Qed.

End ActionProperties.

(** ** The write to the control file *)

Lemma doEnableDisable_success_openable filePath action w w' :
  doEnableDisable filePath action w = (None, w') -> openable filePath w = true.
Proof.
  unfold openable.
  destruct (files w !! filePath) as [f|] eqn:Hf.
  - destruct (may_write w f) eqn:Hw; [reflexivity|].
    rewrite (doEnableDisable_denied _ _ _ _ Hf Hw). discriminate.
  - destruct (nocreate w !! filePath) as [e|] eqn:Hn; [|reflexivity].
    rewrite (doEnableDisable_uncreatable _ _ _ _ Hf Hn). discriminate.
Qed.

(** C4, as the code has it.  The write is one open with the create flag and
    without the truncate flag, followed by one write of the action string
    at offset 0.  After a successful write the file holds the action string
    followed by the bytes the previous contents had beyond the length of
    the action string; it holds exactly the action string when the file did
    not exist or when its previous contents were no longer than the action
    string. *)
Theorem doEnableDisable_overwrites_prefix
    (filePath action : string) (w w' : World) :
  doEnableDisable filePath action w = (None, w') ->
  trace w' = trace w ++ [EvOpenFile filePath open_flags perm_0644;
                         EvWrite filePath action]
  /\ contents filePath w' =
       Some (action +:+ string_drop (String.length action)
                                    (old_bytes filePath w))
  /\ ((String.length (old_bytes filePath w) <= String.length action)%nat ->
      contents filePath w' = Some action).
Proof.
  intros H. split; [|split].
  - pose proof (doEnableDisable_trace filePath action w) as T.
    rewrite H in T. simpl in T.
    now rewrite (doEnableDisable_success_openable _ _ _ _ H) in T.
  - exact (doEnableDisable_success_contents _ _ _ _ H).
  - intros Hlen. rewrite (doEnableDisable_success_contents _ _ _ _ H).
    rewrite string_drop_all by exact Hlen. now rewrite append_empty_r.
Qed.

Lemma created_mode_bits w n :
  0 <= n ->
  Z.testbit (created_mode w) n
  = Z.testbit perm_0644 n && negb (Z.testbit (umask w) n).
Proof.
  intros Hn. unfold created_mode, create_mode.
  now rewrite Z.land_spec, Z.lnot_spec by exact Hn.
Qed.

Lemma created_mode_unmasked w :
  Z.land perm_0644 (umask w) = 0 -> created_mode w = perm_0644.
Proof.
  intros H. apply Z.bits_inj'. intros n Hn.
  rewrite created_mode_bits by exact Hn.
  apply (f_equal (fun z => Z.testbit z n)) in H.
  rewrite Z.land_spec, Z.bits_0 in H.
  destruct (Z.testbit perm_0644 n), (Z.testbit (umask w) n);
    simpl in *; congruence.
Qed.

(** C10, as the code has it.  When nothing exists at the path, what the
    open with the create flag does is up to the system.  Where it lets the
    process create a file there, the open does not fail: the file is
    created with the permission argument 0644, so with the bits of 0644
    that the mask of the process does not clear (0644 itself when the mask
    clears none of them), and the write succeeds, leaving the action string
    as the contents of the new file.  Where it refuses, the open fails with
    the errno of the refusal, nothing is created, nothing is written, and
    the error comes back. *)
Theorem doEnableDisable_creates_missing_file
    (filePath action : string) (w : World) :
  files w !! filePath = None ->
  match nocreate w !! filePath with
  | None =>
      exists w' : World,
        doEnableDisable filePath action w = (None, w')
        /\ files w' !! filePath = Some (mkFile action (created_mode w) None)
        /\ (forall n : Z, 0 <= n ->
              Z.testbit (created_mode w) n
              = Z.testbit perm_0644 n && negb (Z.testbit (umask w) n))
        /\ (Z.land perm_0644 (umask w) = 0 -> created_mode w = perm_0644)
        /\ trace w' = trace w ++ [EvOpenFile filePath open_flags perm_0644;
                                  EvWrite filePath action]
  | Some errno =>
      doEnableDisable filePath action w
      = (Some (open_failure (PathError "open" filePath errno)),
         emit (EvOpenFile filePath open_flags perm_0644) w)
      /\ files (doEnableDisable filePath action w).2 = files w
  end.
Proof.
  intros Hf. destruct (nocreate w !! filePath) as [errno|] eqn:Hn.
  - rewrite (doEnableDisable_uncreatable _ _ _ _ Hf Hn). split; reflexivity.
  - eexists. split; [apply (doEnableDisable_created _ _ _ Hf Hn)|].
    simpl. split; [|split; [|split]].
    + rewrite lookup_insert_eq. f_equal. f_equal.
      apply write_at_start_covers. simpl. lia.
    + apply created_mode_bits.
    + apply created_mode_unmasked.
    + now rewrite <- app_assoc.
Qed.

(** Every failure of [doEnableDisable] is one of its two messages, and both
    are built with the constant [smtPath], whatever [filePath] is. *)
Lemma doEnableDisable_failure_names_smtPath filePath action w err :
  (doEnableDisable filePath action w).1 = Some err ->
  exists (op : string) (errno : Errno),
    let cause := PathError op filePath errno in
    err = open_failure cause \/ err = write_failure action cause.
Proof.
  destruct (files w !! filePath) as [f|] eqn:Hf.
  - destruct (may_write w f) eqn:Hw.
    + rewrite (doEnableDisable_existing _ _ _ _ Hf Hw). simpl.
      destruct (fwerr f) as [e|]; simpl; [|discriminate].
      intros H; inversion H. exists "write", e. now right.
    + rewrite (doEnableDisable_denied _ _ _ _ Hf Hw). simpl.
      intros H; inversion H. exists "open", EACCES. now left.
  - destruct (nocreate w !! filePath) as [e|] eqn:Hn.
    + rewrite (doEnableDisable_uncreatable _ _ _ _ Hf Hn). simpl.
      intros H; inversion H. exists "open", e. now left.
    + rewrite (doEnableDisable_created _ _ _ Hf Hn). discriminate.
Qed.

(** ** The run of the command *)

Lemma quiet_step_refl w : quiet_step w w.
Proof.
  split; [reflexivity|]. split; [reflexivity|].
  exists []. split; [now rewrite app_nil_r | constructor].
Qed.

Lemma quiet_step_trans w1 w2 w3 :
  quiet_step w1 w2 -> quiet_step w2 w3 -> quiet_step w1 w3.
Proof.
  intros (F1 & N1 & e1 & T1 & A1) (F2 & N2 & e2 & T2 & A2).
  split; [congruence|]. split; [congruence|].
  exists (e1 ++ e2). split.
  - now rewrite T2, T1, app_assoc.
  - now apply Forall_app.
Qed.

Lemma quiet_ret {A : Type} (a : A) : quiet (ret a).
Proof. intros w. apply quiet_step_refl. Qed.

Lemma quiet_bind {A B : Type} (m : M A) (k : A -> M B) :
  quiet m -> (forall a, quiet (k a)) -> quiet (bind m k).
Proof.
  intros Hm Hk w. unfold bind. specialize (Hm w).
  destruct (m w) as [a w1]. simpl in Hm.
  eapply quiet_step_trans; [exact Hm | apply Hk].
Qed.

Lemma quiet_call e : touches e = false -> quiet (call e).
Proof.
  intros H w. split; [reflexivity|]. split; [reflexivity|].
  exists [e]. split; [reflexivity | now constructor].
Qed.

Lemma quiet_ReadFile path : quiet (ioutil_ReadFile path).
Proof.
  unfold ioutil_ReadFile. apply quiet_bind; [now apply quiet_call|].
  intros _ w. destruct (files w !! path) as [f|] eqn:E; rewrite ?E.
  - destruct (may_read w f); apply quiet_step_refl.
  - apply quiet_step_refl.
Qed.

Lemma quiet_Errorf format args : quiet (Errorf format args).
Proof.
  unfold Errorf. apply quiet_bind; [now apply quiet_call|].
  intros _. apply quiet_ret.
Qed.

Section RunProperties.
Context {P : MitigatePkg}.

Lemma getCPUSet_run path w :
  getCPUSet path w =
    let w1 := emit (EvReadFile path) w in
    let failed errno :=
      (inr (fmt_Errorf "failed to read %s: %w"
              [ArgS path; ArgV (PathError "open" path errno)]), w1) in
    match files w !! path with
    | None => failed ENOENT
    | Some f =>
        if may_read w f
        then (NewCPUSet (fdata f), emit (EvNewCPUSet (fdata f)) w1)
        else failed EACCES
    end.
Proof.
  unfold getCPUSet, ioutil_ReadFile. run.
  destruct (files w !! path) as [f|]; [|reflexivity].
  rewrite may_read_emit. destruct (may_read w f); reflexivity.
Qed.

Lemma quiet_getCPUSet path : quiet (getCPUSet path).
Proof.
  unfold getCPUSet. apply quiet_bind; [apply quiet_ReadFile|].
  intros [d|e]; [|apply quiet_ret].
  apply quiet_bind; [now apply quiet_call | intros _; apply quiet_ret].
Qed.

Lemma quiet_String cpuSet : quiet (call_String cpuSet).
Proof.
  unfold call_String. apply quiet_bind; [now apply quiet_call|].
  intros _. apply quiet_ret.
Qed.

Lemma quiet_postMitigate m cpuSet : quiet (call_postMitigate m cpuSet).
Proof.
  unfold call_postMitigate. apply quiet_bind; [now apply quiet_call|].
  intros _. apply quiet_ret.
Qed.

(** The action selected in dry-run mode does nothing at all. *)
Lemma select_action_dryRun m filePath cpuSet w :
  dryRun m = true -> select_action m filePath cpuSet w = (None, w).
Proof. intros H. unfold select_action. now rewrite H. Qed.

Lemma select_action_real m :
  dryRun m = false ->
  select_action m = if reverse m then doReverse else doMitigate.
Proof. intros H. unfold select_action. now rewrite H. Qed.

Lemma quiet_after_steps m cpuInfoPath : quiet (after_steps m cpuInfoPath).
Proof.
  unfold after_steps.
  apply quiet_bind; [apply quiet_getCPUSet|].
  intros [afterSet|e]; [|apply quiet_Errorf].
  apply quiet_bind; [apply quiet_String|]. intros s'.
  apply quiet_bind; [now apply quiet_call|]. intros _.
  apply quiet_bind; [apply quiet_postMitigate|].
  intros [e|]; [apply quiet_Errorf | apply quiet_ret].
Qed.

Lemma quiet_doExecute_dryRun m cpuInfoPath smtFilePath :
  dryRun m = true -> quiet (doExecute m cpuInfoPath smtFilePath).
Proof.
  intros Hd. unfold doExecute.
  apply quiet_bind; [apply quiet_getCPUSet|].
  intros [beforeSet|e]; [|apply quiet_Errorf].
  apply quiet_bind; [apply quiet_String|]. intros s.
  apply quiet_bind; [now apply quiet_call|]. intros _.
  apply quiet_bind.
  { intros w. rewrite (select_action_dryRun _ _ _ _ Hd). apply quiet_step_refl. }
  intros [e|]; [apply quiet_Errorf|]. apply quiet_after_steps.
Qed.

(** C8. With both the dry-run flag and the reverse flag set, the action
    that runs is the dry-run function: it returns success and leaves the
    world untouched, and the whole run neither opens nor writes the control
    file. *)
Theorem dryRun_takes_precedence_over_reverse (m : Mitigate) :
  dryRun m = true -> reverse m = true ->
  (forall (smtFilePath : string) (beforeSet : CPUSet) (w : World),
      select_action m smtFilePath beforeSet w = (None, w))
  /\ (forall (cpuInfoPath smtFilePath : string) (w : World),
         quiet_step w (doExecute m cpuInfoPath smtFilePath w).2).
Proof.
  intros Hd _. split.
  - intros. now apply select_action_dryRun.
  - intros. now apply quiet_doExecute_dryRun.
Qed.

Lemma doExecute_after_before m cpuInfoPath smtFilePath w beforeSet w1 :
  getCPUSet cpuInfoPath w = (inl beforeSet, w1) ->
  doExecute m cpuInfoPath smtFilePath w =
    let (a, w2) := select_action m smtFilePath beforeSet
                     (before_action beforeSet w1) in
    (match a with
     | Some err => Errorf "Action failed: %v" [ArgV err]
     | None => after_steps m cpuInfoPath
     end) w2.
Proof.
  intros Hb. unfold doExecute at 1. unfold bind at 1. rewrite Hb.
  unfold before_action. reflexivity.
Qed.

(** C9. Once the before set has been obtained, a failing action step ends
    the run: the exit status is the failure status and the only call made
    after the action is the report of its error, so the topology file is
    not read again, nothing is parsed and the post-mitigate check is not
    called.  After a successful action step the next call is the second
    read of the topology file, followed, in this order, by the parse of
    what was read and the post-mitigate check, each only if the step before
    it succeeded. *)
Theorem doExecute_stops_at_action_error
    (m : Mitigate) (cpuInfoPath smtFilePath : string) (w w1 w2 : World)
    (beforeSet : CPUSet) (a : option error) :
  getCPUSet cpuInfoPath w = (inl beforeSet, w1) ->
  select_action m smtFilePath beforeSet (before_action beforeSet w1) = (a, w2) ->
  match a with
  | Some err =>
      doExecute m cpuInfoPath smtFilePath w =
        (ExitFailure, emit (EvErrorf "Action failed: %v" [ArgV err]) w2)
  | None =>
      exists (st : ExitStatus) (w3 : World) (tail : list Event),
        doExecute m cpuInfoPath smtFilePath w = (st, w3)
        /\ files w3 = files w2
        /\ trace w3 = trace w2 ++ EvReadFile cpuInfoPath :: tail
        /\ after_action m tail st
  end.
Proof.
  intros Hb Ha. rewrite (doExecute_after_before _ _ _ _ _ _ Hb), Ha.
  destruct a as [err|]; [reflexivity|].
  unfold after_steps. unfold bind at 1. rewrite getCPUSet_run. simpl.
  destruct (files w2 !! cpuInfoPath) as [f|] eqn:Hf.
  2:{ eexists _, _, _. split; [reflexivity|]. simpl.
      split; [reflexivity|]. split; [now rewrite <- app_assoc|]. constructor. }
  destruct (may_read w2 f).
  2:{ eexists _, _, _. split; [reflexivity|]. simpl.
      split; [reflexivity|]. split; [now rewrite <- app_assoc|]. constructor. }
  destruct (NewCPUSet (fdata f)) as [afterSet|err] eqn:Hn.
  2:{ eexists _, _, _. split; [reflexivity|]. simpl.
      split; [reflexivity|]. split; [now rewrite <- !app_assoc|].
      now constructor. }
  unfold call_String, call_postMitigate. run.
  destruct (postMitigate m afterSet) as [err|] eqn:Hp.
  - eexists _, _, _. split; [reflexivity|]. simpl.
    split; [reflexivity|]. split; [now rewrite <- !app_assoc|].
    now apply after_check_failed.
  - eexists _, _, _. split; [reflexivity|]. simpl.
    split; [reflexivity|]. split; [now rewrite <- !app_assoc|].
    now apply after_check_passed.
Qed.

(** What the test of the command expects of the package.  In [TestExecute]
    the case CascadeLake4 runs the forward action on the mitigated
    description (one thread per core) and wants the control file to hold
    "off" afterwards, starting from "on".  Whatever package passes this case
    parses the mitigated description and reports it vulnerable. *)
Lemma TestExecute_mitigated_description_is_vulnerable :
  doExecuteTest forward (Mock.MakeMitigatedCPUString Mock.CascadeLake4)
                "off" ExitSuccess = true ->
  exists cpuSet : CPUSet,
    NewCPUSet (Mock.MakeMitigatedCPUString Mock.CascadeLake4) = inl cpuSet
    /\ IsVulnerable cpuSet = true.
Proof.
  fold mitigated_text. unfold doExecuteTest.
  set (w0 := host mitigated_text "on" perm_0600).
  assert (Hf : files w0 !! test_cpuinfo
               = Some (mkFile mitigated_text perm_0600 None))
    by apply lookup_insert_eq.
  pose proof (getCPUSet_run test_cpuinfo w0) as Hb.
  rewrite Hf in Hb. simpl in Hb.
  change (may_read w0 (mkFile mitigated_text perm_0600 None)) with true in Hb.
  destruct (NewCPUSet mitigated_text) as [cpuSet|e] eqn:Hn.
  - intros H. exists cpuSet. split; [reflexivity|].
    destruct (IsVulnerable cpuSet) eqn:Hv; [reflexivity|]. exfalso.
    rewrite (doExecute_after_before _ _ _ _ _ _ Hb) in H.
    change (select_action forward) with doMitigate in H.
    rewrite (doMitigate_safe _ _ _ Hv) in H.
    match type of H with
    | context [after_steps ?m ?p ?w] =>
        pose proof (quiet_after_steps m p w) as (Hq & _);
        destruct (after_steps m p w) as [st w'] eqn:Ha
    end.
    simpl in Hq.
    assert (Hc : contents test_smt w' = Some "on").
    { unfold contents. rewrite Hq. reflexivity. }
    rewrite Hc in H. destruct st; simpl in H; discriminate H.
  - unfold doExecute. unfold bind at 1. rewrite Hb. simpl. discriminate.
Qed.

(** The forward action, call by call and file by file. *)
Lemma doMitigate_facts filePath cpuSet w :
  let r := doMitigate filePath cpuSet w in
  let calls := drop (length (trace w)) (trace r.2) in
  (IsVulnerable cpuSet = false -> r = (None, emit EvIsVulnerable w))
  /\ calls = EvIsVulnerable
             :: (if IsVulnerable cpuSet
                 then control_events filePath "off" (openable filePath w)
                 else [])
  /\ (forall p b, EvWrite p b ∈ calls <->
        IsVulnerable cpuSet = true /\ openable filePath w = true
        /\ p = filePath /\ b = "off")
  /\ files r.2 = (if IsVulnerable cpuSet && accepts filePath w
                  then files_written filePath "off" w else files w)
  /\ (r.1 = None <-> IsVulnerable cpuSet = false \/ accepts filePath w = true)
  /\ (IsVulnerable cpuSet = true -> accepts filePath w = true ->
      contents filePath r.2
      = Some ("off" +:+ string_drop 3 (old_bytes filePath w))).
Proof.
  cbv zeta. destruct (IsVulnerable cpuSet) eqn:Hv.
  - rewrite (doMitigate_vulnerable _ _ _ Hv). unfold wrap at 1 2 3 5. simpl.
    rewrite doEnableDisable_trace, doEnableDisable_files.
    rewrite openable_emit, accepts_emit. simpl trace.
    rewrite <- app_assoc, drop_app_length. simpl.
    change (files_written filePath "off" (emit EvIsVulnerable w))
      with (files_written filePath "off" w).
    pose proof (doEnableDisable_result filePath "off" (emit EvIsVulnerable w))
      as R.
    rewrite accepts_emit in R.
    split; [discriminate|]. split; [reflexivity|]. split; [|split; [|split]].
    + intros p b. unfold control_events. split.
      * intros Hin. apply elem_of_cons in Hin as [Hin|Hin]; [discriminate|].
        apply elem_of_cons in Hin as [Hin|Hin]; [discriminate|].
        destruct (openable filePath w).
        -- apply list_elem_of_singleton in Hin. inversion Hin. auto.
        -- inversion Hin.
      * intros (_ & Ho & -> & ->). rewrite Ho.
        do 2 apply list_elem_of_further. apply list_elem_of_here.
    + reflexivity.
    + unfold wrap. simpl.
      destruct (doEnableDisable filePath "off" (emit EvIsVulnerable w)).1
        as [e|].
      * split; [discriminate|]. intros [H|H]; [discriminate|].
        apply R in H. discriminate H.
      * split; [intros _; right; now apply R | reflexivity].
    + intros _ A. apply R in A. unfold wrap.
      destruct (doEnableDisable filePath "off" (emit EvIsVulnerable w))
        as [r w'] eqn:E.
      simpl in A. subst r. simpl.
      exact (doEnableDisable_success_contents _ _ _ _ E).
  - rewrite (doMitigate_safe _ _ _ Hv). simpl.
    rewrite drop_app_length.
    split; [reflexivity|]. split; [reflexivity|]. split; [|split; [|split]].
    + intros p b. split.
      * intros Hin. apply list_elem_of_singleton in Hin. discriminate Hin.
      * intros (Hx & _). discriminate Hx.
    + reflexivity.
    + split; [intros _; now left | reflexivity].
    + discriminate.
Qed.

(** C1, as the code has it.  The forward action asks the set whether it
    is vulnerable.  When the set is reported not vulnerable it returns
    success having made no other call, the files being as they were; when
    it is reported vulnerable it opens the control file and, once the open
    went through, writes the literal "off": "off" is handed to a write if
    and only if the set is reported vulnerable and the open went through,
    the action then succeeds exactly when the system lets the write
    through, and the control file then holds "off" over the start of what
    it held.  Whether a host that has been mitigated gets a second write is
    therefore up to the classification alone; the test of the command wants
    the CascadeLake4 description with one thread per core reported
    vulnerable, and with a package that passes that test the forward action
    on that description writes "off" again. *)
Theorem doMitigate_writes_off_iff_reported_vulnerable
    (filePath : string) (cpuSet : CPUSet) (w : World) :
  let r := doMitigate filePath cpuSet w in
  let calls := drop (length (trace w)) (trace r.2) in
  (IsVulnerable cpuSet = false -> r = (None, emit EvIsVulnerable w))
  /\ calls = EvIsVulnerable
             :: (if IsVulnerable cpuSet
                 then control_events filePath "off" (openable filePath w)
                 else [])
  /\ (forall p b, EvWrite p b ∈ calls <->
        IsVulnerable cpuSet = true /\ openable filePath w = true
        /\ p = filePath /\ b = "off")
  /\ files r.2 = (if IsVulnerable cpuSet && accepts filePath w
                  then files_written filePath "off" w else files w)
  /\ (r.1 = None <-> IsVulnerable cpuSet = false \/ accepts filePath w = true)
  /\ (IsVulnerable cpuSet = true -> accepts filePath w = true ->
      contents filePath r.2
      = Some ("off" +:+ string_drop 3 (old_bytes filePath w)))
  /\ (doExecuteTest forward mitigated_text "off" ExitSuccess = true ->
      exists mitigated : CPUSet,
        NewCPUSet mitigated_text = inl mitigated
        /\ IsVulnerable mitigated = true
        /\ (accepts filePath w = true ->
            let again := doMitigate filePath mitigated w in
            again.1 = None
            /\ EvWrite filePath "off"
                 ∈ drop (length (trace w)) (trace again.2)
            /\ contents filePath again.2
               = Some ("off" +:+ string_drop 3 (old_bytes filePath w)))).
Proof.
  cbv zeta.
  destruct (doMitigate_facts filePath cpuSet w) as (F1 & F2 & F3 & F4 & F5 & F6).
  repeat (split; [assumption|]).
  intros T.
  destruct (TestExecute_mitigated_description_is_vulnerable T)
    as (mitigated & Hn & Hv).
  exists mitigated. split; [exact Hn|]. split; [exact Hv|].
  intros A.
  destruct (doMitigate_facts filePath mitigated w) as (_ & _ & G3 & _ & G5 & G6).
  split; [apply G5; now right|]. split; [|now apply G6].
  apply G3. repeat split; try reflexivity; try assumption.
  now apply accepts_openable.
Qed.

End RunProperties.

(** ** Dry-run *)

Section DryRun.
Context {P : MitigatePkg}.

(** In a real run the two designs are the same function. *)
Lemma select_action_swapping_write_real m :
  dryRun m = false -> select_action m = select_action_swapping_write m.
Proof.
  intros H. unfold select_action, select_action_swapping_write. rewrite H.
  destruct (reverse m); reflexivity.
Qed.

Lemma doExecute_dryRun_status m cpuInfoPath smtFilePath w :
  dryRun m = true ->
  (doExecute m cpuInfoPath smtFilePath w).1 =
    match files w !! cpuInfoPath with
    | None => ExitFailure
    | Some f =>
        if may_read w f then
          match NewCPUSet (fdata f) with
          | inr _ => ExitFailure
          | inl cpuSet =>
              match postMitigate m cpuSet with
              | Some _ => ExitFailure
              | None => ExitSuccess
              end
          end
        else ExitFailure
    end.
Proof.
  intros Hd. unfold doExecute. unfold bind at 1. rewrite getCPUSet_run. simpl.
  destruct (files w !! cpuInfoPath) as [f|] eqn:Hf; [|reflexivity].
  destruct (may_read w f) eqn:Hr; [|reflexivity].
  destruct (NewCPUSet (fdata f)) as [cpuSet|err] eqn:Hn; [|reflexivity].
  unfold call_String. run. rewrite (select_action_dryRun _ _ _ _ Hd).
  rewrite getCPUSet_run. simpl. rewrite Hf, !may_read_emit, Hr, Hn.
  unfold call_postMitigate. run.
  destruct (postMitigate m cpuSet); reflexivity.
Qed.

(** C3, as the code has it.  In dry-run mode the whole action is replaced
    by a function that does nothing: whatever the reverse flag and the CPU
    set, the action step makes no call (it does not ask the set whether it
    is vulnerable and selects no control value) and returns success.  The
    design with only the write step swapped would give the same result and
    the same files, and differs by the vulnerability query it makes in the
    forward direction.  Around the action step the run is the one of a real
    run: it writes nothing, and it fails exactly when the topology file
    cannot be read, its text cannot be parsed, or the post-mitigate check
    rejects the set; the state of the control file plays no part. *)
Theorem dryRun_replaces_the_whole_action (m : Mitigate) :
  dryRun m = true ->
  (forall (smtFilePath : string) (beforeSet : CPUSet) (w : World),
      select_action m smtFilePath beforeSet w = (None, w))
  /\ (forall (smtFilePath : string) (beforeSet : CPUSet) (w : World),
        select_action_swapping_write m smtFilePath beforeSet w =
          (None, if reverse m then w else emit EvIsVulnerable w))
  /\ (forall (cpuInfoPath smtFilePath : string) (w : World),
        quiet_step w (doExecute m cpuInfoPath smtFilePath w).2)
  /\ (forall (cpuInfoPath smtFilePath : string) (w : World),
        (doExecute m cpuInfoPath smtFilePath w).1 =
          match files w !! cpuInfoPath with
          | None => ExitFailure
          | Some f =>
              if may_read w f then
                match NewCPUSet (fdata f) with
                | inr _ => ExitFailure
                | inl cpuSet =>
                    match postMitigate m cpuSet with
                    | Some _ => ExitFailure
                    | None => ExitSuccess
                    end
                end
              else ExitFailure
          end).
Proof.
  intros Hd. split; [|split; [|split]].
  - intros. now apply select_action_dryRun.
  - intros. unfold select_action_swapping_write. rewrite Hd.
    destruct (reverse m); [reflexivity|].
    unfold doMitigate_with, no_write. run.
    destruct (IsVulnerable beforeSet); reflexivity.
  - intros. now apply quiet_doExecute_dryRun.
  - intros. now apply doExecute_dryRun_status.
Qed.

End DryRun.

(** ** Command line *)

Section CommandLine.
Context {P : MitigatePkg}.

Lemma NArg_zero f : (NArg f =? 0) = true <-> positional f = [].
Proof.
  unfold NArg. destruct (positional f); simpl; split; intros H;
    try reflexivity; try discriminate.
Qed.

(** C7, as the code has it.  On an ARM build the command gives up with the
    failure status before it looks at its arguments.  On every other
    architecture one or more positional arguments make it print the usage
    and return the usage-error status, whose exit code differs from those
    of success and failure, without reading or writing any file; with no
    positional argument it runs [doExecute] on the topology file and the
    control file. *)
Theorem Execute_usage_error_except_on_arm
    (GOARCH : string) (m : Mitigate) (f : FlagSet) (w : World) :
  ((GOARCH = "arm64" \/ GOARCH = "arm") ->
     Execute GOARCH m f w = (ExitFailure, emit arm_warning w))
  /\ (GOARCH <> "arm64" -> GOARCH <> "arm" ->
      (positional f <> [] ->
         Execute GOARCH m f w = (ExitUsageError, emit EvUsage w)
         /\ exit_code ExitUsageError <> exit_code ExitFailure
         /\ exit_code ExitUsageError <> exit_code ExitSuccess)
      /\ (positional f = [] ->
          Execute GOARCH m f w = doExecute m cpuInfo smtPath w)).
Proof.
  split.
  - intros [-> | ->]; reflexivity.
  - intros H64 H32. unfold Execute.
    apply String.eqb_neq in H64, H32. rewrite H64, H32. simpl.
    split.
    + intros Hne. destruct (NArg f =? 0) eqn:E.
      * apply NArg_zero in E. contradiction.
      * simpl. split; [reflexivity|]. split; discriminate.
    + intros He. apply NArg_zero in He. now rewrite He.
Qed.

End CommandLine.

(** ** Empty and unparsable topology text *)

Lemma parse_lines_nothing ls out :
  forallb (fun l => bool_decide (Topology.required_key l = None)) ls = true ->
  Topology.parse_lines ls None out = inl out.
Proof.
  induction ls as [|l ls IH]; simpl; [reflexivity|].
  intros H. apply andb_prop in H as [Hl Hls].
  apply bool_decide_eq_true in Hl.
  destruct (Topology.is_blank l).
  - now apply IH.
  - rewrite Hl. now apply IH.
Qed.

Lemma NewCPUSet_nonempty data cpus :
  Topology.NewCPUSet data = inl cpus -> cpus <> [].
Proof.
  unfold Topology.NewCPUSet.
  destruct (Topology.parseProcessors data) as [[|c cs]|e];
    intros H; inversion H; discriminate.
Qed.

(** C6. Constructing a CPU set from a text in which no line carries a
    required key, the empty text in particular, fails with the "no cpus
    found" error that carries the text; a construction that succeeds never
    gives a set with zero processors; and [getCPUSet] on a readable file
    holding such a text returns that error. *)
Theorem NewCPUSet_no_cpus_found (data : string) :
  (unparsable data = true ->
     Topology.NewCPUSet data = inr (Topology.ErrNoCPUs data))
  /\ (forall cpus : Topology.CPUSet,
        Topology.NewCPUSet data = inl cpus -> (0 < Topology.NumCPUs cpus)%nat)
  /\ Topology.NewCPUSet "" = inr (Topology.ErrNoCPUs "")
  /\ (forall (path : string) (f : FileNode) (w : World),
        files w !! path = Some f -> may_read w f = true -> fdata f = data ->
        unparsable data = true ->
        (getCPUSet (P := specPkg) path w).1 = inr (Topology.ErrNoCPUs data)).
Proof.
  assert (U : unparsable data = true ->
              Topology.NewCPUSet data = inr (Topology.ErrNoCPUs data)).
  { intros H. unfold Topology.NewCPUSet, Topology.parseProcessors.
    now rewrite (parse_lines_nothing _ [] H). }
  split; [exact U|]. split; [|split].
  - intros cpus H. apply NewCPUSet_nonempty in H.
    unfold Topology.NumCPUs. destruct cpus; [contradiction | simpl; lia].
  - reflexivity.
  - intros path f w Hf Hr Hd Hu. rewrite getCPUSet_run. simpl.
    rewrite Hf, Hr, Hd. simpl. now apply U.
Qed.

(** ** The properties on the test host *)

(** C1, the claim as stated fails.  The mitigated CascadeLake4 description
    has one thread per core; the package as specified leaves it alone and
    fails the case CascadeLake4 of [TestExecute], the package that passes
    that case reports it vulnerable; and with it the forward action on the
    mitigated host, whose control file holds "off" already, opens the
    control file and writes "off" a second time. *)
Lemma doMitigate_writes_again_on_mitigated_host_counterexample :
  let w := host mitigated_text "off" perm_0600 in
  let r := doMitigate (P := testedPkg) test_smt (parsed mitigated_text) w in
  Topology.ThreadsPerCore (parsed mitigated_text) = 1%nat
  /\ doExecuteTest (P := specPkg) forward mitigated_text "off" ExitSuccess
     = false
  /\ doExecuteTest (P := testedPkg) forward mitigated_text "off" ExitSuccess
     = true
  /\ r.1 = None
  /\ trace r.2 = [EvIsVulnerable; EvOpenFile test_smt open_flags perm_0644;
                  EvWrite test_smt "off"].
Proof. repeat split; vm_compute; reflexivity. Qed.

(** C1 on the test host, with the package that passes the test of the
    command: the forward action writes "off" on the mitigated description,
    over the "off" the control file holds, and leaves the description of
    the machine without cross-thread bugs alone. *)
Lemma doMitigate_writes_off_iff_reported_vulnerable_witness :
  let w := host mitigated_text "off" perm_0600 in
  (exists mitigated : Topology.CPUSet,
      Topology.NewCPUSet mitigated_text = inl mitigated
      /\ (doMitigate (P := testedPkg) test_smt mitigated w).1 = None
      /\ EvWrite test_smt "off"
           ∈ trace (doMitigate (P := testedPkg) test_smt mitigated w).2
      /\ contents test_smt (doMitigate (P := testedPkg) test_smt mitigated w).2
         = Some "off")
  /\ doMitigate (P := testedPkg) test_smt (parsed safe_text) w
     = (None, emit EvIsVulnerable w).
Proof.
  intros w.
  destruct (doMitigate_writes_off_iff_reported_vulnerable (P := testedPkg)
              test_smt (parsed safe_text) w) as (Hs & _ & _ & _ & _ & _ & Ht).
  split.
  - destruct Ht as (mitigated & Hn & _ & Hw); [vm_compute; reflexivity|].
    destruct Hw as (H1 & H2 & H3); [vm_compute; reflexivity|].
    exists mitigated. split; [exact Hn|]. split; [exact H1|].
    split; [exact H2 | exact H3].
  - apply Hs. vm_compute. reflexivity.
Defined.

(** C2 on the test host: for a set that is not vulnerable the reverse
    action writes "on" over the "off" the control file holds, which leaves
    "onf". *)
Lemma doReverse_writes_on_unconditionally_witness :
  let w := host safe_text "off" perm_0600 in
  IsVulnerable (MitigatePkg := specPkg) (parsed safe_text) = false
  /\ (doReverse (P := specPkg) test_smt (parsed safe_text) w).1 = None
  /\ trace (doReverse (P := specPkg) test_smt (parsed safe_text) w).2
     = [EvOpenFile test_smt open_flags perm_0644; EvWrite test_smt "on"]
  /\ contents test_smt (doReverse (P := specPkg) test_smt (parsed safe_text) w).2
     = Some "onf".
Proof.
  intros w.
  destruct (doReverse_writes_on_unconditionally (P := specPkg) test_smt
              (parsed safe_text) w) as (_ & T & R & _ & C & _).
  split; [vm_compute; reflexivity|].
  split; [apply R; vm_compute; reflexivity|].
  split; [exact T|]. apply C. vm_compute. reflexivity.
Defined.

(** C4, the claim as stated fails: reversing on a control file that holds
    "off" succeeds and leaves "onf", not "on". *)
Lemma doEnableDisable_keeps_old_tail_counterexample :
  (doEnableDisable test_smt "on" (host mitigated_text "off" perm_0600)).1 = None
  /\ contents test_smt
       (doEnableDisable test_smt "on" (host mitigated_text "off" perm_0600)).2
     = Some "onf"
  /\ Some "onf" <> Some "on".
Proof.
  split; [vm_compute; reflexivity|].
  split; [vm_compute; reflexivity | discriminate].
Qed.

(** C4 on the test host: "off" over "on" leaves exactly "off". *)
Lemma doEnableDisable_overwrites_prefix_witness :
  contents test_smt
    (doEnableDisable test_smt "off" (host vulnerable_text "on" perm_0600)).2
  = Some "off".
Proof.
  refine (proj2 (proj2 (doEnableDisable_overwrites_prefix test_smt "off"
            (host vulnerable_text "on" perm_0600) _ _)) _).
  - vm_compute. reflexivity.
  - vm_compute. lia.
Defined.

(** C10, the claim as stated fails: where the system refuses to create
    the control file the open fails although the create flag is set, and
    nothing is created; and where it creates it for a process with mask
    027 the mode of the new file is 0640, not 0644. *)
Lemma doEnableDisable_missing_file_counterexample :
  let refused := host_refusing_control vulnerable_text in
  let masked := host_without_control vulnerable_text mask_027 in
  (files refused !! test_smt = None
   /\ doEnableDisable test_smt "off" refused
      = (Some (open_failure (PathError "open" test_smt EACCES)),
         emit (EvOpenFile test_smt open_flags perm_0644) refused)
   /\ files (doEnableDisable test_smt "off" refused).2 !! test_smt = None)
  /\ (files masked !! test_smt = None
      /\ files (doEnableDisable test_smt "off" masked).2 !! test_smt
         = Some (mkFile "off" (6 * 64 + 4 * 8) None)
      /\ 6 * 64 + 4 * 8 <> perm_0644).
Proof.
  intros refused masked.
  split; [repeat split; vm_compute; reflexivity|].
  split; [vm_compute; reflexivity|].
  split; [vm_compute; reflexivity | discriminate].
Qed.

(** C10 on a host without a control file, for a process with mask 022. *)
Lemma doEnableDisable_creates_missing_file_witness :
  let w := host_without_control vulnerable_text mask_022 in
  exists w' : World,
    doEnableDisable test_smt "off" w = (None, w')
    /\ files w' !! test_smt = Some (mkFile "off" perm_0644 None).
Proof.
  intros w.
  pose proof (doEnableDisable_creates_missing_file test_smt "off" w eq_refl)
    as H.
  change (nocreate w !! test_smt) with (@None Errno) in H.
  destruct H as (w' & R & F & _ & U & _).
  exists w'. split; [exact R|].
  rewrite F, U; reflexivity.
Defined.

(** C8 on the test host: a dry reverse run ends in success and the control
    file still holds "off". *)
Lemma dryRun_takes_precedence_over_reverse_witness :
  select_action (P := specPkg) dry_backward test_smt (parsed mitigated_text)
    (host mitigated_text "off" perm_0600)
  = (None, host mitigated_text "off" perm_0600)
  /\ files (doExecute (P := specPkg) dry_backward test_cpuinfo test_smt
              (host mitigated_text "off" perm_0600)).2
     = files (host mitigated_text "off" perm_0600).
Proof.
  destruct (dryRun_takes_precedence_over_reverse (P := specPkg) dry_backward
              eq_refl eq_refl) as [Ha Hq].
  split; [apply Ha|]. apply (Hq test_cpuinfo test_smt).
Defined.

(** C9 on the test host with a control file the process may not write: the
    forward run stops at the action. *)
Lemma doExecute_stops_at_action_error_witness :
  let w := host vulnerable_text "on" perm_0444 in
  let w1 := (getCPUSet (P := specPkg) test_cpuinfo w).2 in
  let r := select_action (P := specPkg) forward test_smt
             (parsed vulnerable_text)
             (before_action (P := specPkg) (parsed vulnerable_text) w1) in
  exists err : error,
    r.1 = Some err
    /\ doExecute (P := specPkg) forward test_cpuinfo test_smt w
       = (ExitFailure, emit (EvErrorf "Action failed: %v" [ArgV err]) r.2).
Proof.
  intros w w1 r.
  exists (fmt_Errorf "disable: %v"
            [ArgV (open_failure (PathError "open" test_smt EACCES))]).
  split; [vm_compute; reflexivity|].
  refine (doExecute_stops_at_action_error (P := specPkg) forward test_cpuinfo
            test_smt w w1 r.2 (parsed vulnerable_text)
            (Some (fmt_Errorf "disable: %v"
               [ArgV (open_failure (PathError "open" test_smt EACCES))])) _ _).
  - vm_compute. reflexivity.
  - vm_compute. reflexivity.
Defined.

(** C3, the claim as stated fails: in a dry forward run on the vulnerable
    host the action step makes no call, while the decision logic with only
    its write step swapped asks the set whether it is vulnerable; and where
    the control file cannot be opened the real run reports the failure and
    the dry run reports success. *)
Lemma dryRun_skips_the_decision_counterexample :
  let w := host vulnerable_text "on" perm_0600 in
  let w_ro := host vulnerable_text "on" perm_0444 in
  select_action (P := specPkg) dry_forward test_smt (parsed vulnerable_text) w
    = (None, w)
  /\ select_action_swapping_write (P := specPkg) dry_forward test_smt
       (parsed vulnerable_text) w
     = (None, emit EvIsVulnerable w)
  /\ select_action (P := specPkg) dry_forward test_smt
       (parsed vulnerable_text) w
     <> select_action_swapping_write (P := specPkg) dry_forward test_smt
          (parsed vulnerable_text) w
  /\ (doExecute (P := specPkg) forward test_cpuinfo test_smt w_ro).1
     = ExitFailure
  /\ (doExecute (P := specPkg) dry_forward test_cpuinfo test_smt w_ro).1
     = ExitSuccess.
Proof.
  intros w w_ro.
  assert (R : (doExecute (P := specPkg) forward test_cpuinfo test_smt w_ro).1
              = ExitFailure) by (vm_compute; reflexivity).
  assert (D : (doExecute (P := specPkg) dry_forward test_cpuinfo test_smt
                 w_ro).1 = ExitSuccess) by (vm_compute; reflexivity).
  assert (A : select_action (P := specPkg) dry_forward test_smt
                (parsed vulnerable_text) w = (None, w)) by reflexivity.
  assert (B : select_action_swapping_write (P := specPkg) dry_forward test_smt
                (parsed vulnerable_text) w = (None, emit EvIsVulnerable w))
    by (vm_compute; reflexivity).
  split; [exact A|]. split; [exact B|].
  split; [|split; [exact R | exact D]].
  rewrite A, B. intros H.
  apply (f_equal (fun r => length (trace r.2))) in H. discriminate H.
Qed.

(** C3 on the test host: a dry forward run on the vulnerable host succeeds
    and the control file still holds "on". *)
Lemma dryRun_replaces_the_whole_action_witness :
  let w := host vulnerable_text "on" perm_0600 in
  select_action (P := specPkg) dry_forward test_smt (parsed vulnerable_text) w
    = (None, w)
  /\ files (doExecute (P := specPkg) dry_forward test_cpuinfo test_smt w).2
     = files w
  /\ (doExecute (P := specPkg) dry_forward test_cpuinfo test_smt w).1
     = ExitSuccess.
Proof.
  intros w.
  destruct (dryRun_replaces_the_whole_action (P := specPkg) dry_forward
              eq_refl) as (Ha & _ & Hq & Hs).
  split; [apply Ha|]. split; [apply (Hq test_cpuinfo test_smt w)|].
  rewrite Hs. vm_compute. reflexivity.
Defined.

(** C7, the claim as stated fails: on an arm64 build a positional argument
    gives the failure status, not the usage-error status, and without
    arguments the command does not run the operation. *)
Lemma Execute_on_arm_counterexample :
  let w := host vulnerable_text "on" perm_0600 in
  Execute (P := specPkg) "arm64" forward (mkFlagSet ["extra"]) w
    = (ExitFailure, emit arm_warning w)
  /\ ExitFailure <> ExitUsageError
  /\ Execute (P := specPkg) "arm64" forward (mkFlagSet []) w
     <> doExecute (P := specPkg) forward cpuInfo smtPath w.
Proof.
  intros w. split; [reflexivity|]. split; [discriminate|].
  intros H. apply (f_equal (fun r => length (trace r.2))) in H.
  vm_compute in H. discriminate H.
Qed.

(** C7 on an amd64 build. *)
Lemma Execute_usage_error_except_on_arm_witness :
  let w := host vulnerable_text "on" perm_0600 in
  Execute (P := specPkg) "amd64" forward (mkFlagSet ["extra"]) w
    = (ExitUsageError, emit EvUsage w)
  /\ Execute (P := specPkg) "amd64" forward (mkFlagSet []) w
     = doExecute (P := specPkg) forward cpuInfo smtPath w.
Proof.
  intros w. split.
  - refine (proj1 (proj1 (proj2 (Execute_usage_error_except_on_arm
              (P := specPkg) "amd64" forward (mkFlagSet ["extra"]) w) _ _) _)).
    + discriminate.
    + discriminate.
    + discriminate.
  - refine (proj2 (proj2 (Execute_usage_error_except_on_arm
              (P := specPkg) "amd64" forward (mkFlagSet []) w) _ _) _).
    + discriminate.
    + discriminate.
    + reflexivity.
Defined.

(** C6 on the texts of [TestExecute]. *)
Lemma NewCPUSet_no_cpus_found_witness :
  Topology.NewCPUSet "somethingNotCPU"
    = inr (Topology.ErrNoCPUs "somethingNotCPU")
  /\ (0 < Topology.NumCPUs (parsed vulnerable_text))%nat.
Proof.
  destruct (NewCPUSet_no_cpus_found "somethingNotCPU") as (Hu & _).
  destruct (NewCPUSet_no_cpus_found vulnerable_text) as (_ & Hn & _).
  split.
  - apply Hu. vm_compute. reflexivity.
  - apply Hn. vm_compute. reflexivity.
Defined.

(** ** The cases of [TestExecute] on the package as specified *)

(** CascadeLake4, reverse: "on" is written. *)
Lemma TestExecute_CascadeLake4_Reverse :
  doExecuteTest (P := specPkg) backward (Mock.MakeCPUString Mock.CascadeLake4)
                "on" ExitSuccess = true.
Proof. vm_compute. reflexivity. Qed.

(** Empty: both runs fail. *)
Lemma TestExecute_Empty :
  doExecuteTest (P := specPkg) forward "" "" ExitFailure = true
  /\ doExecuteTest (P := specPkg) backward "somethingNotCPU" "" ExitFailure
     = true.
Proof. split; vm_compute; reflexivity. Qed.

(** Partial: both runs fail. *)
Lemma TestExecute_Partial :
  doExecuteTest (P := specPkg) forward partial_data "" ExitFailure = true
  /\ doExecuteTest (P := specPkg) backward partial_data "" ExitFailure = true.
Proof. split; vm_compute; reflexivity. Qed.

(** CascadeLake4, mitigate: the case wants "off" written for the mitigated
    description, which by the rule of spec section 3 (a set with one thread
    per core is never vulnerable) is left alone. *)
Lemma TestExecute_CascadeLake4_Mitigate_as_specified :
  doExecuteTest (P := specPkg) forward
                (Mock.MakeMitigatedCPUString Mock.CascadeLake4)
                "off" ExitSuccess = false
  /\ doExecuteTest (P := specPkg) forward
                   (Mock.MakeCPUString Mock.CascadeLake4)
                   "off" ExitSuccess = true.
Proof. split; vm_compute; reflexivity. Qed.

(** ** The cases of [TestExecute] on the package the test needs *)

(** With the classification by bug tags alone every case passes. *)
Lemma TestExecute_as_tested :
  let run := doExecuteTest (P := testedPkg) in
  run forward (Mock.MakeMitigatedCPUString Mock.CascadeLake4) "off" ExitSuccess
  = true
  /\ run backward (Mock.MakeCPUString Mock.CascadeLake4) "on" ExitSuccess
     = true
  /\ run forward "" "" ExitFailure = true
  /\ run backward "somethingNotCPU" "" ExitFailure = true
  /\ run forward partial_data "" ExitFailure = true
  /\ run backward partial_data "" ExitFailure = true.
Proof. repeat split; vm_compute; reflexivity. Qed.

(** * Further properties *)

(** ** More on the write to the control file *)

(** X1. [doEnableDisable] changes no file but the one at [filePath], does
    not change where files may be created, and leaves the permission bits
    of an existing control file as they were. *)
Theorem doEnableDisable_changes_only_its_file
    (filePath action : string) (w : World) :
  frame_step filePath w (doEnableDisable filePath action w).2
  /\ (forall f f' : FileNode,
        files w !! filePath = Some f ->
        files (doEnableDisable filePath action w).2 !! filePath = Some f' ->
        fmode f' = fmode f).
Proof.
  split; [apply frames_doEnableDisable|].
  intros f f' Hf. rewrite doEnableDisable_files. unfold files_written.
  rewrite Hf. destruct (accepts filePath w).
  - rewrite lookup_insert_eq. intros H; inversion H. reflexivity.
  - rewrite Hf. intros H; inversion H. reflexivity.
Qed.

(** X2. A [doEnableDisable] that fails has changed no file: since the open
    does not truncate, a control file that could not be written still
    holds what it held. *)
Theorem doEnableDisable_failure_keeps_files
    (filePath action : string) (w : World) (err : error) :
  (doEnableDisable filePath action w).1 = Some err ->
  forall (p : string) (f : FileNode),
    files w !! p = Some f ->
    files (doEnableDisable filePath action w).2 !! p = Some f.
Proof.
  intros H p f Hf. rewrite doEnableDisable_files.
  destruct (accepts filePath w) eqn:Ha; [|exact Hf].
  pose proof (proj2 (doEnableDisable_result filePath action w) Ha) as Hr.
  rewrite Hr in H. discriminate H.
Qed.

(** X3. A successful [doEnableDisable] never makes the control file
    shorter: its length afterwards is the larger of the length of the
    action string and the length it had. *)
Theorem doEnableDisable_never_shortens
    (filePath action : string) (w w' : World) :
  doEnableDisable filePath action w = (None, w') ->
  exists bytes : string,
    contents filePath w' = Some bytes
    /\ String.length bytes =
         Nat.max (String.length action)
                 (String.length (old_bytes filePath w)).
Proof.
  intros H. eexists. split; [exact (doEnableDisable_success_contents _ _ _ _ H)|].
  rewrite length_append, length_string_drop. lia.
Qed.

(** X4. Two successful writes in a row: the second one writes over the
    result of the first from the start of the file, so writing the same
    string twice leaves what one write leaves, a string at least as long
    as the first erases it, and a shorter one leaves the tail of the first
    behind it. *)
Theorem doEnableDisable_twice
    (filePath a b : string) (w w1 w2 : World) :
  doEnableDisable filePath a w = (None, w1) ->
  doEnableDisable filePath b w1 = (None, w2) ->
  let old := old_bytes filePath w in
  contents filePath w2 =
    Some (b +:+ string_drop (String.length b)
                  (a +:+ string_drop (String.length a) old))
  /\ (a = b -> contents filePath w2 = contents filePath w1)
  /\ ((String.length a <= String.length b)%nat ->
      contents filePath w2 =
        Some (b +:+ string_drop (String.length b) old))
  /\ ((String.length b <= String.length a)%nat ->
      contents filePath w2 =
        Some (b +:+ string_drop (String.length b) a
                +:+ string_drop (String.length a) old)).
Proof.
  intros H1 H2 old.
  pose proof (doEnableDisable_success_contents _ _ _ _ H1) as C1.
  pose proof (doEnableDisable_success_contents _ _ _ _ H2) as C2.
  fold old in C1.
  assert (O : old_bytes filePath w1
              = a +:+ string_drop (String.length a) old).
  { unfold old_bytes. now rewrite C1. }
  rewrite O in C2. split; [exact C2|]. split; [|split].
  - intros <-. rewrite C2, C1. now rewrite string_drop_append.
  - intros L. rewrite C2. f_equal. f_equal.
    rewrite string_drop_append_short by exact L.
    rewrite string_drop_drop. f_equal. lia.
  - intros L. rewrite C2. f_equal. f_equal.
    now apply string_drop_append_long.
Qed.

(** ** More on the action step *)

Lemma count_app f l1 l2 : count f (l1 ++ l2) = (count f l1 + count f l2)%nat.
Proof. induction l1 as [|e l1 IH]; simpl; [reflexivity|]. rewrite IH. lia. Qed.

Lemma frame_step_refl p w : frame_step p w w.
Proof. split; auto. Qed.

Lemma frame_step_trans p w1 w2 w3 :
  frame_step p w1 w2 -> frame_step p w2 w3 -> frame_step p w1 w3.
Proof.
  intros [F1 N1] [F2 N2]. split; [|congruence].
  intros q Hq. rewrite (F2 q Hq). now apply F1.
Qed.

Lemma quiet_frame_step p w w' : quiet_step w w' -> frame_step p w w'.
Proof. intros (F & N & _). split; [intros q _; now rewrite F | exact N]. Qed.

Section ActionStep.
Context {P : MitigatePkg}.

Lemma select_action_cases m :
  select_action m =
    if dryRun m then (fun _ _ => ret None)
    else if reverse m then doReverse else doMitigate.
Proof. unfold select_action. destruct (dryRun m), (reverse m); reflexivity. Qed.

Lemma select_action_trace m filePath cpuSet w :
  trace (select_action m filePath cpuSet w).2 =
    trace w ++ action_events m filePath (IsVulnerable cpuSet)
                             (openable filePath w).
Proof.
  rewrite select_action_cases. unfold action_events, control_events.
  destruct (dryRun m); [simpl; now rewrite app_nil_r|].
  destruct (reverse m).
  - rewrite doReverse_run. unfold wrap. simpl. apply doEnableDisable_trace.
  - destruct (IsVulnerable cpuSet) eqn:Hv.
    + rewrite (doMitigate_vulnerable _ _ _ Hv). unfold wrap. simpl.
      rewrite doEnableDisable_trace. simpl. now rewrite <- app_assoc.
    + now rewrite (doMitigate_safe _ _ _ Hv).
Qed.

Lemma select_action_files m filePath cpuSet w :
  files (select_action m filePath cpuSet w).2 =
    if must_write m (IsVulnerable cpuSet)
    then files (doEnableDisable filePath (if reverse m then "on" else "off")
                  w).2
    else files w.
Proof.
  rewrite select_action_cases. unfold must_write.
  destruct (dryRun m); [reflexivity|].
  destruct (reverse m); simpl.
  - rewrite doReverse_run. reflexivity.
  - destruct (IsVulnerable cpuSet) eqn:Hv.
    + rewrite (doMitigate_vulnerable _ _ _ Hv). unfold wrap. simpl.
      now rewrite !doEnableDisable_files.
    + now rewrite (doMitigate_safe _ _ _ Hv).
Qed.

Lemma select_action_nocreate m filePath cpuSet w :
  nocreate (select_action m filePath cpuSet w).2 = nocreate w.
Proof.
  rewrite select_action_cases.
  destruct (dryRun m); [reflexivity|].
  destruct (reverse m).
  - rewrite doReverse_run. apply doEnableDisable_nocreate.
  - destruct (IsVulnerable cpuSet) eqn:Hv.
    + rewrite (doMitigate_vulnerable _ _ _ Hv). unfold wrap. simpl.
      now rewrite doEnableDisable_nocreate.
    + now rewrite (doMitigate_safe _ _ _ Hv).
Qed.

Lemma select_action_process m filePath cpuSet w :
  umask (select_action m filePath cpuSet w).2 = umask w
  /\ root (select_action m filePath cpuSet w).2 = root w.
Proof.
  rewrite select_action_cases.
  destruct (dryRun m); [split; reflexivity|].
  destruct (reverse m).
  - rewrite doReverse_run. apply doEnableDisable_process.
  - destruct (IsVulnerable cpuSet) eqn:Hv.
    + rewrite (doMitigate_vulnerable _ _ _ Hv). unfold wrap. simpl.
      apply (doEnableDisable_process filePath "off" (emit EvIsVulnerable w)).
    + rewrite (doMitigate_safe _ _ _ Hv). split; reflexivity.
Qed.

Lemma frames_select_action m filePath cpuSet :
  frames filePath (select_action m filePath cpuSet).
Proof.
  intros w. split; [|apply select_action_nocreate].
  intros p Hp. rewrite select_action_files.
  destruct (must_write m (IsVulnerable cpuSet)); [|reflexivity].
  now apply frames_doEnableDisable.
Qed.

(** X5. The action step fails exactly when it has to write (the run is not
    a dry run, and it reverses or the set is vulnerable) and the system
    does not let the write to the control file through.  Its error then
    wraps the error of the write under the label of the direction,
    "enable" when reversing and "disable" otherwise. *)
Theorem select_action_fails_iff
    (m : Mitigate) (filePath : string) (cpuSet : CPUSet) (w : World) :
  ((select_action m filePath cpuSet w).1 = None <->
     must_write m (IsVulnerable cpuSet) = false \/ accepts filePath w = true)
  /\ (forall err : error,
        (select_action m filePath cpuSet w).1 = Some err ->
        exists (op : string) (errno : Errno),
          let cause := PathError op filePath errno in
          let label := if reverse m then "enable: %v" else "disable: %v" in
          err = fmt_Errorf label [ArgV (open_failure cause)]
          \/ err = fmt_Errorf label
                     [ArgV (write_failure (if reverse m then "on" else "off")
                                          cause)]).
Proof.
  rewrite select_action_cases. unfold must_write.
  destruct (dryRun m); simpl.
  { split; [split; auto|]. intros err H. discriminate H. }
  destruct (reverse m); simpl.
  - rewrite doReverse_run. unfold wrap. simpl.
    pose proof (doEnableDisable_result filePath "on" w) as R.
    pose proof (doEnableDisable_failure_names_smtPath filePath "on" w) as S.
    destruct (doEnableDisable filePath "on" w).1 as [e|].
    + split.
      * split; [discriminate|]. intros [H|H]; [discriminate|].
        apply R in H. discriminate H.
      * intros err H. inversion H; subst.
        destruct (S e eq_refl) as (op & errno & [-> | ->]);
          exists op, errno; auto.
    + split; [|discriminate]. split; [|reflexivity].
      intros _. right. now apply R.
  - destruct (IsVulnerable cpuSet) eqn:Hv.
    + rewrite (doMitigate_vulnerable _ _ _ Hv). unfold wrap. simpl.
      pose proof (doEnableDisable_result filePath "off"
                    (emit EvIsVulnerable w)) as R.
      pose proof (doEnableDisable_failure_names_smtPath filePath "off"
                    (emit EvIsVulnerable w)) as S.
      rewrite accepts_emit in R.
      destruct (doEnableDisable filePath "off" (emit EvIsVulnerable w)).1
        as [e|].
      * split.
        -- split; [discriminate|]. intros [H|H]; [discriminate|].
           apply R in H. discriminate H.
        -- intros err H. inversion H; subst.
           destruct (S e eq_refl) as (op & errno & [-> | ->]);
             exists op, errno; auto.
      * split; [|discriminate]. split; [|reflexivity].
        intros _. right. now apply R.
    + rewrite (doMitigate_safe _ _ _ Hv). simpl.
      split; [split; auto|]. discriminate.
Qed.

End ActionStep.

(** ** More on the run of the command *)

Section RunShape.
Context {P : MitigatePkg}.

Lemma getCPUSet_trace path w :
  trace (getCPUSet path w).2 = trace w ++ read_events path w.
Proof.
  rewrite getCPUSet_run. unfold read_events. simpl.
  destruct (files w !! path) as [f|]; [|reflexivity].
  destruct (may_read w f); simpl; [now rewrite <- app_assoc | reflexivity].
Qed.

Lemma getCPUSet_result path w :
  (getCPUSet path w).1 =
    match files w !! path with
    | None =>
        inr (fmt_Errorf "failed to read %s: %w"
               [ArgS path; ArgV (PathError "open" path ENOENT)])
    | Some f =>
        if may_read w f then NewCPUSet (fdata f)
        else inr (fmt_Errorf "failed to read %s: %w"
                    [ArgS path; ArgV (PathError "open" path EACCES)])
    end.
Proof.
  rewrite getCPUSet_run. simpl.
  destruct (files w !! path) as [f|]; [|reflexivity].
  destruct (may_read w f); reflexivity.
Qed.

Lemma getCPUSet_keeps path w :
  files (getCPUSet path w).2 = files w
  /\ nocreate (getCPUSet path w).2 = nocreate w.
Proof. destruct (quiet_getCPUSet path w) as (F & N & _). auto. Qed.

Lemma getCPUSet_process path w :
  umask (getCPUSet path w).2 = umask w /\ root (getCPUSet path w).2 = root w.
Proof.
  rewrite getCPUSet_run. simpl.
  destruct (files w !! path) as [f|]; [|split; reflexivity].
  destruct (may_read w f); split; reflexivity.
Qed.

Lemma openable_same p w w' :
  files w' = files w -> nocreate w' = nocreate w -> root w' = root w ->
  openable p w' = openable p w.
Proof. intros F N R. unfold openable, may_write. now rewrite F, N, R. Qed.

Lemma accepts_same p w w' :
  files w' = files w -> nocreate w' = nocreate w -> root w' = root w ->
  accepts p w' = accepts p w.
Proof. intros F N R. unfold accepts, may_write. now rewrite F, N, R. Qed.

Lemma after_steps_process m cpuInfoPath w :
  umask (after_steps m cpuInfoPath w).2 = umask w
  /\ root (after_steps m cpuInfoPath w).2 = root w.
Proof.
  unfold after_steps, call_String, call_postMitigate, Errorf. run.
  rewrite getCPUSet_run. simpl.
  destruct (files w !! cpuInfoPath) as [f|]; [|split; reflexivity].
  destruct (may_read w f); [|split; reflexivity].
  destruct (NewCPUSet (fdata f)) as [afterSet|err]; [|split; reflexivity].
  simpl. destruct (postMitigate m afterSet); split; reflexivity.
Qed.

Lemma doExecute_before_failed m cpuInfoPath smtFilePath w err w1 :
  getCPUSet cpuInfoPath w = (inr err, w1) ->
  doExecute m cpuInfoPath smtFilePath w =
    (ExitFailure, emit (EvErrorf "Get before CPUSet failed: %v" [ArgV err]) w1).
Proof.
  intros Hb. unfold doExecute. unfold bind at 1. rewrite Hb. reflexivity.
Qed.

(** The calls of [after_steps]. *)
Lemma after_steps_shape m cpuInfoPath w :
  exists tail : list Event,
    trace (after_steps m cpuInfoPath w).2
      = trace w ++ EvReadFile cpuInfoPath :: tail
    /\ after_action m tail (after_steps m cpuInfoPath w).1.
Proof.
  unfold after_steps, call_String, call_postMitigate, Errorf. run.
  rewrite getCPUSet_run. simpl.
  destruct (files w !! cpuInfoPath) as [f|] eqn:Hf.
  2:{ eexists. simpl. split; [now rewrite <- app_assoc | constructor]. }
  destruct (may_read w f).
  2:{ eexists. simpl. split; [now rewrite <- app_assoc | constructor]. }
  destruct (NewCPUSet (fdata f)) as [afterSet|err] eqn:Hn.
  2:{ eexists. simpl. split; [now rewrite <- !app_assoc | now constructor]. }
  simpl.
  destruct (postMitigate m afterSet) as [err|] eqn:Hp.
  - eexists. simpl. split; [now rewrite <- !app_assoc|].
    now apply after_check_failed.
  - eexists. simpl. split; [now rewrite <- !app_assoc|].
    now apply after_check_passed.
Qed.

(** The calls of a run, from the first to the last. *)
Lemma doExecute_trace m cpuInfoPath smtFilePath w :
  exists rest : list Event,
    ending m cpuInfoPath rest (doExecute m cpuInfoPath smtFilePath w).1
    /\ trace (doExecute m cpuInfoPath smtFilePath w).2 =
         trace w ++ read_events cpuInfoPath w
           ++ match (getCPUSet cpuInfoPath w).1 with
              | inr _ => rest
              | inl beforeSet =>
                  [EvString;
                   EvInfof "CPUs before: %s"
                           [ArgS (CPUSet_String beforeSet)]]
                  ++ action_events m smtFilePath (IsVulnerable beforeSet)
                                   (openable smtFilePath w)
                  ++ rest
              end.
Proof.
  pose proof (getCPUSet_trace cpuInfoPath w) as T1.
  destruct (getCPUSet_keeps cpuInfoPath w) as [F1 N1].
  destruct (getCPUSet_process cpuInfoPath w) as [_ R1].
  destruct (getCPUSet cpuInfoPath w) as [[beforeSet|err] w1] eqn:Hb;
    simpl in T1, F1, N1, R1 |- *.
  - rewrite (doExecute_after_before _ _ _ _ _ _ Hb).
    pose proof (select_action_trace m smtFilePath beforeSet
                  (before_action beforeSet w1)) as T2.
    assert (O : openable smtFilePath (before_action beforeSet w1)
                = openable smtFilePath w).
    { unfold before_action. rewrite !openable_emit.
      now apply openable_same. }
    rewrite O in T2. unfold before_action in T2 at 2. simpl in T2.
    rewrite T1 in T2.
    destruct (select_action m smtFilePath beforeSet
                (before_action beforeSet w1)) as [[err|] w2];
      simpl in T2 |- *.
    + eexists. split; [left; split; [reflexivity | eauto]|].
      rewrite T2. now rewrite <- !app_assoc.
    + destruct (after_steps_shape m cpuInfoPath w2) as (tail & T3 & A).
      eexists. split; [right; eauto|].
      rewrite T3, T2. now rewrite <- !app_assoc.
  - exists [EvErrorf "Get before CPUSet failed: %v" [ArgV err]].
    rewrite (doExecute_before_failed _ _ _ _ _ _ Hb). simpl.
    split; [left; split; [reflexivity | eauto]|].
    rewrite T1. now rewrite <- app_assoc.
Qed.

(** The files of a run are those of its action step. *)
Lemma doExecute_files m cpuInfoPath smtFilePath w :
  files (doExecute m cpuInfoPath smtFilePath w).2 =
    match (getCPUSet cpuInfoPath w).1 with
    | inr _ => files w
    | inl beforeSet =>
        if must_write m (IsVulnerable beforeSet)
        then files (doEnableDisable smtFilePath
                      (if reverse m then "on" else "off") w).2
        else files w
    end.
Proof.
  destruct (getCPUSet_keeps cpuInfoPath w) as [F1 N1].
  destruct (getCPUSet_process cpuInfoPath w) as [U1 R1].
  destruct (getCPUSet cpuInfoPath w) as [[beforeSet|err] w1] eqn:Hb;
    simpl in F1, N1, U1, R1 |- *.
  - rewrite (doExecute_after_before _ _ _ _ _ _ Hb).
    pose proof (select_action_files m smtFilePath beforeSet
                  (before_action beforeSet w1)) as F2.
    assert (E : forall a,
               files (doEnableDisable smtFilePath a
                        (before_action beforeSet w1)).2
               = files (doEnableDisable smtFilePath a w).2).
    { intros a. rewrite !doEnableDisable_files.
      unfold before_action. rewrite !accepts_emit.
      rewrite (accepts_same _ _ _ F1 N1 R1).
      unfold files_written, created_mode, old_bytes, contents. simpl.
      now rewrite F1, U1. }
    rewrite E in F2.
    replace (files (before_action beforeSet w1)) with (files w) in F2
      by (symmetry; exact F1).
    destruct (select_action m smtFilePath beforeSet
                (before_action beforeSet w1)) as [[err|] w2];
      simpl in F2 |- *; [exact F2|].
    destruct (quiet_after_steps m cpuInfoPath w2) as (F3 & _).
    now rewrite F3.
  - rewrite (doExecute_before_failed _ _ _ _ _ _ Hb). exact F1.
Qed.

End RunShape.

Lemma Forall_on_its_file_control cip sfp action opens :
  Forall (on_its_file cip sfp) (control_events sfp action opens).
Proof.
  unfold control_events. destruct opens; repeat constructor.
Qed.

Lemma action_events_facts cip sfp m vulnerable opens :
  let evs := action_events m sfp vulnerable opens in
  count is_open evs = (if must_write m vulnerable then 1 else 0)%nat
  /\ count is_write evs
     = (if must_write m vulnerable && opens then 1 else 0)%nat
  /\ count is_read evs = O
  /\ count is_errorf evs = O
  /\ Forall (on_its_file cip sfp) evs.
Proof.
  unfold action_events, must_write, control_events.
  destruct (dryRun m), (reverse m), vulnerable, opens; simpl;
    repeat split; repeat constructor.
Qed.

Lemma read_events_facts cip sfp w :
  let evs := read_events cip w in
  count is_open evs = O /\ count is_write evs = O
  /\ count is_read evs = 1%nat /\ count is_errorf evs = O
  /\ Forall (on_its_file cip sfp) evs.
Proof.
  unfold read_events. destruct (files w !! cip) as [f|];
    [destruct (may_read w f)|]; simpl; repeat split; repeat constructor.
Qed.

Section RunFacts.
Context {P : MitigatePkg}.

Lemma after_action_facts cip sfp m tail st :
  after_action m tail st ->
  count is_open tail = O /\ count is_write tail = O
  /\ count is_read tail = O
  /\ Forall (on_its_file cip sfp) tail
  /\ match st with
     | ExitSuccess =>
         count is_errorf tail = O /\ last tail = Some EvPostMitigate
     | ExitFailure =>
         count is_errorf tail = 1%nat
         /\ exists format args, last tail = Some (EvErrorf format args)
     | ExitUsageError => False
     end.
Proof.
  intros H. destruct H; simpl; repeat split; repeat constructor; eauto.
Qed.

Lemma ending_facts cip sfp m rest st :
  ending m cip rest st ->
  count is_open rest = O /\ count is_write rest = O
  /\ (count is_read rest <= 1)%nat
  /\ (st = ExitSuccess -> count is_read rest = 1%nat)
  /\ Forall (on_its_file cip sfp) rest
  /\ match st with
     | ExitSuccess =>
         count is_errorf rest = O /\ last rest = Some EvPostMitigate
     | ExitFailure =>
         count is_errorf rest = 1%nat
         /\ exists format args, last rest = Some (EvErrorf format args)
     | ExitUsageError => False
     end.
Proof.
  intros [[-> (format & args & ->)] | (tail & -> & A)].
  - simpl. repeat split; try lia; try discriminate; repeat constructor; eauto.
  - destruct (after_action_facts cip sfp _ _ _ A) as (O & W & R & F & S).
    simpl. rewrite O, W, R. repeat split; try lia.
    + constructor; [reflexivity | exact F].
    + destruct st; try exact S.
      * destruct S as [E L]. split; [exact E|].
        rewrite last_cons, L. reflexivity.
      * destruct S as [E (format & args & L)]. split; [exact E|].
        exists format, args. rewrite last_cons, L. reflexivity.
Qed.

(** X6. The files after a run are the files after the one write its
    action step had to make, and the files it started from when it had
    none to make (dry run, forward run on a set that is not vulnerable) or
    when the before snapshot could not be obtained.  So a run changes no
    file but the control file, and with a topology file that cannot be
    read or parsed even a reverse run writes nothing. *)
Theorem doExecute_files_are_those_of_one_write
    (m : Mitigate) (cpuInfoPath smtFilePath : string) (w : World) :
  files (doExecute m cpuInfoPath smtFilePath w).2 =
    match (getCPUSet cpuInfoPath w).1 with
    | inr _ => files w
    | inl beforeSet =>
        if must_write m (IsVulnerable beforeSet)
        then files (doEnableDisable smtFilePath
                      (if reverse m then "on" else "off") w).2
        else files w
    end
  /\ (forall p : string, p <> smtFilePath ->
        files (doExecute m cpuInfoPath smtFilePath w).2 !! p = files w !! p).
Proof.
  split; [apply doExecute_files|].
  intros p Hp. rewrite doExecute_files.
  destruct (getCPUSet cpuInfoPath w).1 as [beforeSet|]; [|reflexivity].
  destruct (must_write m (IsVulnerable beforeSet)); [|reflexivity].
  now apply frames_doEnableDisable.
Qed.

(** X7. The calls of a run that name a file.  The control file is opened
    once when the before snapshot was obtained and the action has to write,
    and not at all otherwise; it is written once when moreover the open
    goes through; the topology file is read once or twice, twice in every
    successful run; and no other file is opened, written or read. *)
Theorem doExecute_file_calls
    (m : Mitigate) (cpuInfoPath smtFilePath : string) (w : World) :
  exists evs : list Event,
    trace (doExecute m cpuInfoPath smtFilePath w).2 = trace w ++ evs
    /\ let writes :=
         match (getCPUSet cpuInfoPath w).1 with
         | inl beforeSet => must_write m (IsVulnerable beforeSet)
         | inr _ => false
         end in
       count is_open evs = (if writes then 1 else 0)%nat
       /\ count is_write evs
          = (if writes && openable smtFilePath w then 1 else 0)%nat
       /\ (1 <= count is_read evs <= 2)%nat
       /\ ((doExecute m cpuInfoPath smtFilePath w).1 = ExitSuccess ->
           count is_read evs = 2%nat)
       /\ Forall (on_its_file cpuInfoPath smtFilePath) evs.
Proof.
  destruct (doExecute_trace m cpuInfoPath smtFilePath w) as (rest & E & T).
  destruct (ending_facts cpuInfoPath smtFilePath _ _ _ E)
    as (Ro & Rw & Rr & Rs & Rf & _).
  destruct (read_events_facts cpuInfoPath smtFilePath w)
    as (Bo & Bw & Br & _ & Bf).
  eexists. split; [exact T|]. cbv zeta.
  set (B := read_events cpuInfoPath w) in *. clearbody B.
  destruct (getCPUSet cpuInfoPath w).1 as [beforeSet|err].
  - destruct (action_events_facts cpuInfoPath smtFilePath m
                (IsVulnerable beforeSet) (openable smtFilePath w))
      as (Ao & Aw & Ar & _ & Af).
    set (A := action_events m smtFilePath (IsVulnerable beforeSet)
                (openable smtFilePath w)) in *. clearbody A.
    rewrite !count_app. simpl. rewrite Bo, Bw, Br, Ao, Aw, Ar, Ro, Rw.
    repeat split; try lia.
    + intros S. rewrite (Rs S). reflexivity.
    + apply Forall_app. split; [exact Bf|].
      repeat constructor. apply Forall_app. split; assumption.
  - rewrite !count_app. rewrite Bo, Bw, Br, Ro, Rw.
    repeat split; try lia.
    + intros S. rewrite (Rs S). reflexivity.
    + apply Forall_app. split; assumption.
Qed.

(** X8. A run ends in success or in failure, never in a usage error.  A
    failing run reports exactly one error, as its last call; a successful
    run reports none and its last call is the post-mitigate check. *)
Theorem doExecute_reports_every_failure
    (m : Mitigate) (cpuInfoPath smtFilePath : string) (w : World) :
  exists evs : list Event,
    trace (doExecute m cpuInfoPath smtFilePath w).2 = trace w ++ evs
    /\ match (doExecute m cpuInfoPath smtFilePath w).1 with
       | ExitSuccess =>
           count is_errorf evs = O /\ last evs = Some EvPostMitigate
       | ExitFailure =>
           count is_errorf evs = 1%nat
           /\ exists format args, last evs = Some (EvErrorf format args)
       | ExitUsageError => False
       end.
Proof.
  destruct (doExecute_trace m cpuInfoPath smtFilePath w) as (rest & E & T).
  destruct (ending_facts cpuInfoPath smtFilePath _ _ _ E)
    as (_ & _ & _ & _ & _ & S).
  destruct (read_events_facts cpuInfoPath smtFilePath w)
    as (_ & _ & _ & Be & _).
  eexists. split; [exact T|].
  assert (L : forall pre x,
             last rest = Some x -> last (pre ++ rest) = Some x).
  { intros pre x Hx. rewrite last_app, Hx. reflexivity. }
  set (B := read_events cpuInfoPath w) in *. clearbody B.
  destruct (getCPUSet cpuInfoPath w).1 as [beforeSet|err].
  - destruct (action_events_facts cpuInfoPath smtFilePath m
                (IsVulnerable beforeSet) (openable smtFilePath w))
      as (_ & _ & _ & Ae & _).
    set (A := action_events m smtFilePath (IsVulnerable beforeSet)
                (openable smtFilePath w)) in *. clearbody A.
    rewrite !count_app. simpl count. rewrite Be, Ae.
    destruct (doExecute m cpuInfoPath smtFilePath w).1; [| |exact S].
    + destruct S as [C Hl]. split; [lia|].
      rewrite !app_assoc. now apply L.
    + destruct S as [C (format & args & Hl)]. split; [lia|].
      exists format, args. rewrite !app_assoc. now apply L.
  - rewrite !count_app. rewrite Be.
    destruct (doExecute m cpuInfoPath smtFilePath w).1; [| |exact S].
    + destruct S as [C Hl]. split; [lia|]. now apply L.
    + destruct S as [C (format & args & Hl)]. split; [lia|].
      exists format, args. now apply L.
Qed.

End RunFacts.

(** ** The snapshot and the command line, once more *)

Section SnapshotAndCommandLine.
Context {P : MitigatePkg}.

(** X9. The errors of [getCPUSet] are of two kinds: the read failed, and
    the error names the path that was asked for and wraps the cause of the
    read; or the file was read and the error is the one the parser gives
    for its bytes.  Either way, and also on success, no file is changed
    and the only calls are the read and, after a successful read, the
    parse. *)
Theorem getCPUSet_errors
    (path : string) (w : World) :
  quiet_step w (getCPUSet path w).2
  /\ trace (getCPUSet path w).2 = trace w ++ read_events path w
  /\ (forall err : error,
        (getCPUSet path w).1 = inr err ->
        (exists errno : Errno,
            err = fmt_Errorf "failed to read %s: %w"
                    [ArgS path; ArgV (PathError "open" path errno)]
            /\ read_events path w = [EvReadFile path])
        \/ (exists f : FileNode,
               files w !! path = Some f /\ NewCPUSet (fdata f) = inr err
               /\ read_events path w
                  = [EvReadFile path; EvNewCPUSet (fdata f)])).
Proof.
  split; [apply quiet_getCPUSet|]. split; [apply getCPUSet_trace|].
  intros err. rewrite getCPUSet_result. unfold read_events.
  destruct (files w !! path) as [f|] eqn:Hf.
  - destruct (may_read w f).
    + intros H. right. exists f. auto.
    + intros H. inversion H. left. exists EACCES. auto.
  - intros H. inversion H. left. exists ENOENT. auto.
Qed.

Lemma doExecute_status m cpuInfoPath smtFilePath w :
  (doExecute m cpuInfoPath smtFilePath w).1 <> ExitUsageError.
Proof.
  destruct (doExecute_trace m cpuInfoPath smtFilePath w) as (rest & E & _).
  destruct (ending_facts cpuInfoPath smtFilePath _ _ _ E)
    as (_ & _ & _ & _ & _ & S).
  intros H. rewrite H in S. exact S.
Qed.

Lemma Execute_cases GOARCH m f w :
  Execute GOARCH m f w =
    if String.eqb GOARCH "arm64" || String.eqb GOARCH "arm"
    then (ExitFailure, emit arm_warning w)
    else if NArg f =? 0 then doExecute m cpuInfo smtPath w
    else (ExitUsageError, emit EvUsage w).
Proof.
  unfold Execute.
  destruct (String.eqb GOARCH "arm64" || String.eqb GOARCH "arm");
    [reflexivity|].
  destruct (NArg f =? 0); reflexivity.
Qed.

(** X10. The exit status of the command.  It is the usage error exactly
    when the build is not for ARM and there are positional arguments; it
    is success only when the build is not for ARM, there is no positional
    argument, and the run on "/proc/cpuinfo" and the SMT control file
    succeeds. *)
Theorem Execute_exit_status
    (GOARCH : string) (m : Mitigate) (f : FlagSet) (w : World) :
  let arm := String.eqb GOARCH "arm64" || String.eqb GOARCH "arm" in
  ((Execute GOARCH m f w).1 = ExitUsageError <->
     arm = false /\ positional f <> [])
  /\ ((Execute GOARCH m f w).1 = ExitSuccess <->
      arm = false /\ positional f = []
      /\ (doExecute m "/proc/cpuinfo"
                    "/sys/devices/system/cpu/smt/control" w).1 = ExitSuccess).
Proof.
  cbv zeta. rewrite Execute_cases.
  destruct (String.eqb GOARCH "arm64" || String.eqb GOARCH "arm").
  { simpl. split; split; try discriminate; intros [H _]; discriminate H. }
  destruct (NArg f =? 0) eqn:E.
  - apply NArg_zero in E. split.
    + split.
      * intros H. now apply doExecute_status in H.
      * intros [_ H]. contradiction.
    + split; [intros H; auto|]. intros (_ & _ & H). exact H.
  - assert (N : positional f <> []).
    { intros H. apply NArg_zero in H. rewrite H in E. discriminate E. }
    simpl. split.
    + split; [auto | reflexivity].
    + split; [discriminate|]. intros (_ & H & _). contradiction.
Qed.

(** X11. Whatever the build, the flags and the arguments, the command
    changes no file other than the SMT control file, opens and writes no
    other file, and reads no file other than "/proc/cpuinfo". *)
Theorem Execute_changes_only_the_control_file
    (GOARCH : string) (m : Mitigate) (f : FlagSet) (w : World) :
  (forall p : string,
      p <> "/sys/devices/system/cpu/smt/control" ->
      files (Execute GOARCH m f w).2 !! p = files w !! p)
  /\ exists evs : list Event,
       trace (Execute GOARCH m f w).2 = trace w ++ evs
       /\ Forall (on_its_file "/proc/cpuinfo"
                              "/sys/devices/system/cpu/smt/control") evs.
Proof.
  rewrite Execute_cases.
  destruct (String.eqb GOARCH "arm64" || String.eqb GOARCH "arm").
  { split; [reflexivity|]. eexists. split; [reflexivity|].
    repeat constructor. }
  destruct (NArg f =? 0).
  - split.
    + intros p Hp. rewrite doExecute_files.
      destruct (getCPUSet cpuInfo w).1 as [beforeSet|]; [|reflexivity].
      destruct (must_write m (IsVulnerable beforeSet)); [|reflexivity].
      now apply frames_doEnableDisable.
    + destruct (doExecute_trace m cpuInfo smtPath w) as (rest & E & T).
      destruct (ending_facts cpuInfo smtPath _ _ _ E)
        as (_ & _ & _ & _ & Rf & _).
      destruct (read_events_facts cpuInfo smtPath w) as (_ & _ & _ & _ & Bf).
      eexists. split; [exact T|].
      apply Forall_app. split; [exact Bf|].
      destruct (getCPUSet cpuInfo w).1 as [beforeSet|err]; [|exact Rf].
      repeat constructor. apply Forall_app. split; [|exact Rf].
      now destruct (action_events_facts cpuInfo smtPath m
                      (IsVulnerable beforeSet) (openable smtPath w))
        as (_ & _ & _ & _ & Af).
  - split; [reflexivity|]. eexists. split; [reflexivity|].
    repeat constructor.
Qed.

End SnapshotAndCommandLine.

(** ** The test of the command *)

Section TestHarness.
Context {P : MitigatePkg}.

Lemma select_action_accepted m filePath cpuSet w :
  accepts filePath w = true -> (select_action m filePath cpuSet w).1 = None.
Proof.
  intros A. rewrite select_action_cases.
  destruct (dryRun m); [reflexivity|].
  destruct (reverse m).
  - rewrite doReverse_run. unfold wrap. simpl.
    now rewrite (proj2 (doEnableDisable_result filePath "on" w) A).
  - destruct (IsVulnerable cpuSet) eqn:Hv.
    + rewrite (doMitigate_vulnerable _ _ _ Hv). unfold wrap. simpl.
      now rewrite (proj2 (doEnableDisable_result filePath "off"
                            (emit EvIsVulnerable w)) A).
    + now rewrite (doMitigate_safe _ _ _ Hv).
Qed.

Lemma after_steps_status m cpuInfoPath w :
  (after_steps m cpuInfoPath w).1 =
    match (getCPUSet cpuInfoPath w).1 with
    | inr _ => ExitFailure
    | inl afterSet =>
        match postMitigate m afterSet with
        | Some _ => ExitFailure
        | None => ExitSuccess
        end
    end.
Proof.
  unfold after_steps. unfold bind at 1.
  destruct (getCPUSet cpuInfoPath w) as [[afterSet|err] w1];
    [|reflexivity].
  unfold call_String, call_postMitigate. run.
  destruct (postMitigate m afterSet); reflexivity.
Qed.

(** With a control file that accepts the write and is not the topology
    file, the run succeeds when the snapshot is obtained and passes the
    post-mitigate check. *)
Lemma doExecute_status_accepting m cpuInfoPath smtFilePath w :
  cpuInfoPath <> smtFilePath -> accepts smtFilePath w = true ->
  (doExecute m cpuInfoPath smtFilePath w).1 =
    match (getCPUSet cpuInfoPath w).1 with
    | inr _ => ExitFailure
    | inl cpuSet =>
        match postMitigate m cpuSet with
        | Some _ => ExitFailure
        | None => ExitSuccess
        end
    end.
Proof.
  intros Hne A.
  pose proof (getCPUSet_result cpuInfoPath w) as R.
  destruct (getCPUSet_keeps cpuInfoPath w) as [F1 N1].
  destruct (getCPUSet_process cpuInfoPath w) as [_ R1].
  destruct (getCPUSet cpuInfoPath w) as [[cpuSet|err] w1] eqn:Hb;
    simpl in R, F1, N1, R1 |- *.
  - rewrite (doExecute_after_before _ _ _ _ _ _ Hb).
    assert (A1 : accepts smtFilePath (before_action cpuSet w1) = true).
    { unfold before_action. rewrite !accepts_emit.
      now rewrite (accepts_same _ _ _ F1 N1 R1). }
    pose proof (select_action_accepted m smtFilePath cpuSet _ A1) as S.
    destruct (frames_select_action m smtFilePath cpuSet
                (before_action cpuSet w1)) as [F2 _].
    destruct (select_action_process m smtFilePath cpuSet
                (before_action cpuSet w1)) as [_ R2].
    destruct (select_action m smtFilePath cpuSet (before_action cpuSet w1))
      as [a w2]. simpl in S, F2, R2. subst a.
    rewrite after_steps_status, getCPUSet_result.
    rewrite (F2 cpuInfoPath Hne). unfold before_action, may_read in *.
    simpl. rewrite R2. simpl. rewrite F1, R1, <- R. reflexivity.
  - now rewrite (doExecute_before_failed _ _ _ _ _ _ Hb).
Qed.

Lemma host_cpuinfo data smt mode :
  files (host data smt mode) !! test_cpuinfo
  = Some (mkFile data perm_0600 None).
Proof. apply lookup_insert_eq. Qed.

Lemma host_smt data smt mode :
  files (host data smt mode) !! test_smt = Some (mkFile smt mode None).
Proof.
  unfold host. simpl. rewrite lookup_insert_ne by discriminate.
  apply lookup_insert_eq.
Qed.

Lemma host_getCPUSet data smt mode :
  (getCPUSet test_cpuinfo (host data smt mode)).1 = NewCPUSet data.
Proof. rewrite getCPUSet_result, host_cpuinfo. reflexivity. Qed.

Lemma host_contents_after m data vulnerable w' :
  files w' =
    (if must_write m vulnerable
     then files (doEnableDisable test_smt (if reverse m then "on" else "off")
                   (host data "on" perm_0600)).2
     else files (host data "on" perm_0600)) ->
  contents test_smt w' = Some (expected_smt m vulnerable).
Proof.
  intros F. unfold contents, expected_smt. rewrite F.
  destruct (must_write m vulnerable).
  - rewrite doEnableDisable_files.
    assert (A : accepts test_smt (host data "on" perm_0600) = true).
    { unfold accepts. rewrite host_smt. reflexivity. }
    rewrite A. unfold files_written. rewrite lookup_insert_eq.
    unfold old_bytes, contents.
    rewrite host_smt. destruct (reverse m); reflexivity.
  - rewrite host_smt. reflexivity.
Qed.

(** X12. What the test of the command checks.  A case that wants success
    passes exactly when the description parses, the post-mitigate check
    accepts the set, and the wanted bytes are those of the value the
    action had to write, "on" when it had none to write; so for a reverse
    run the control file, which the test fills with "on" beforehand, is as
    wanted whether or not "on" was written.  A case that wants failure
    passes exactly when the description does not parse or the
    post-mitigate check rejects the set, whatever bytes it names. *)
Theorem doExecuteTest_passes_iff
    (m : Mitigate) (data wantSmt : string) :
  (doExecuteTest m data wantSmt ExitSuccess = true <->
     exists cpuSet : CPUSet,
       NewCPUSet data = inl cpuSet /\ postMitigate m cpuSet = None
       /\ wantSmt = expected_smt m (IsVulnerable cpuSet))
  /\ (doExecuteTest m data wantSmt ExitFailure = true <->
      (exists err, NewCPUSet data = inr err)
      \/ (exists cpuSet err,
             NewCPUSet data = inl cpuSet
             /\ postMitigate m cpuSet = Some err)).
Proof.
  unfold doExecuteTest.
  set (w0 := host data "on" perm_0600).
  assert (A : accepts test_smt w0 = true).
  { unfold accepts, w0. rewrite host_smt. reflexivity. }
  assert (Hne : test_cpuinfo <> test_smt)
    by (apply String.eqb_neq; reflexivity).
  pose proof (doExecute_status_accepting m _ _ w0 Hne A) as S.
  pose proof (doExecute_files m test_cpuinfo test_smt w0) as F.
  unfold w0 in S, F. rewrite host_getCPUSet in S, F. fold w0 in S, F.
  destruct (doExecute m test_cpuinfo test_smt w0) as [st w'].
  simpl in S, F. subst st.
  destruct (NewCPUSet data) as [cpuSet|err].
  - assert (C : contents test_smt w'
                = Some (expected_smt m (IsVulnerable cpuSet))).
    { apply (host_contents_after m data). exact F. }
    destruct (postMitigate m cpuSet) as [e|] eqn:Hpm; simpl.
    + split.
      * split; [discriminate|]. intros (c & H & Hp & _).
        inversion H; subst. congruence.
      * split; [|reflexivity]. intros _. right. eauto.
    + rewrite C. split.
      * split.
        -- intros H. apply bool_decide_eq_true in H. inversion H.
           exists cpuSet. auto.
        -- intros (c & H & _ & ->). inversion H; subst.
           now apply bool_decide_eq_true.
      * split; [discriminate|].
        intros [(e & H) | (c & e & H & Hp)]; [discriminate H|].
        inversion H; subst. congruence.
  - simpl. split.
    + split; [discriminate|]. intros (c & H & _). discriminate H.
    + split; [|reflexivity]. intros _. left. eauto.
Qed.

End TestHarness.

(** ** The mock CPU descriptions *)

Lemma upto_nonpos n : n <= 0 -> Mock.upto n = [].
Proof.
  intros H. unfold Mock.upto. now replace (Z.to_nat n) with O by lia.
Qed.

Lemma seq_from a b :
  map Z.of_nat (seq a b)
  = map (fun j => Z.of_nat a + Z.of_nat j) (seq 0 b).
Proof.
  revert a. induction b as [|b IH]; intros a; [reflexivity|].
  simpl. f_equal; [lia|].
  rewrite IH, <- seq_shift, map_map. apply map_ext. intros j. lia.
Qed.

Lemma upto_add x y :
  0 <= x -> 0 <= y ->
  Mock.upto (x + y) = Mock.upto x ++ map (Z.add x) (Mock.upto y).
Proof.
  intros Hx Hy. unfold Mock.upto.
  rewrite Z2Nat.inj_add by assumption.
  rewrite seq_app, map_app. f_equal. simpl plus.
  rewrite seq_from, map_map. apply map_ext. intros j. lia.
Qed.

Lemma elem_of_upto n x : x ∈ Mock.upto n -> 0 <= x < n.
Proof.
  unfold Mock.upto. intros H. apply list_elem_of_In, in_map_iff in H.
  destruct H as (j & <- & Hj). apply in_seq in Hj. lia.
Qed.

Lemma bind_ext_in {A B : Type} (f g : A -> list B) (l : list A) :
  (forall x, x ∈ l -> f x = g x) -> l ≫= f = l ≫= g.
Proof.
  induction l as [|x l IH]; intros H; [reflexivity|].
  rewrite !bind_cons. f_equal.
  - apply H. apply list_elem_of_here.
  - apply IH. intros y Hy. apply H. now apply list_elem_of_further.
Qed.

Lemma bind_singleton_map {A B : Type} (f : A -> B) (l : list A) :
  l ≫= (fun x => [f x]) = map f l.
Proof.
  induction l as [|x l IH]; [reflexivity|].
  rewrite bind_cons, IH. reflexivity.
Qed.

Lemma bind_nothing {A B : Type} (l : list A) :
  l ≫= (fun _ => @nil B) = [].
Proof.
  induction l as [|x l IH]; [reflexivity|]. rewrite bind_cons, IH. reflexivity.
Qed.

(** Two nested loops over [a] and [b] values visit the numbers below
    [a * b] in order, the outer index being the quotient and the inner one
    the remainder. *)
Lemma nested_loops {B : Type} (g : Z -> Z -> Z -> list B) a b :
  0 <= a -> 0 <= b ->
  (i ← Mock.upto a; j ← Mock.upto b; g (i * b + j) i j)
  = (n ← Mock.upto (a * b); g n (n / b) (n mod b)).
Proof.
  intros Ha Hb. revert a Ha. apply natlike_ind.
  - reflexivity.
  - intros a Ha IH. unfold Z.succ.
    rewrite (upto_add a 1) by lia.
    replace ((a + 1) * b) with (a * b + b) by lia.
    rewrite (upto_add (a * b) b) by nia.
    rewrite !bind_app, IH. f_equal.
    change (map (Z.add a) (Mock.upto 1)) with [a + 0].
    rewrite bind_singleton.
    change (map (Z.add (a * b)) (Mock.upto b))
      with (Z.add (a * b) <$> Mock.upto b).
    rewrite list_fmap_bind.
    apply bind_ext_in. intros j Hj. apply elem_of_upto in Hj.
    unfold compose.
    replace (a + 0) with a by lia.
    replace ((a * b + j) / b) with a
      by (apply Z.div_unique with j; lia).
    replace ((a * b + j) mod b) with j
      by (apply Z.mod_unique with a; lia).
    reflexivity.
Qed.

Lemma doMakeCPUString_cover tc physicalCores cores threadsPerCore :
  0 <= physicalCores -> 0 <= cores -> 0 <= threadsPerCore ->
  Mock.doMakeCPUString tc physicalCores cores threadsPerCore =
    String.concat ""
      (map (entry_at tc cores threadsPerCore)
           (Mock.upto (physicalCores * cores * threadsPerCore))).
Proof.
  intros Hp Hc Ht. unfold Mock.doMakeCPUString. f_equal.
  etransitivity.
  { apply (nested_loops
             (fun m i j =>
                k ← Mock.upto threadsPerCore;
                [Mock.entry tc (m * threadsPerCore + k) i j k])
             physicalCores cores Hp Hc). }
  etransitivity.
  { apply (nested_loops
             (fun n m k => [Mock.entry tc n (m / cores) (m mod cores) k])
             (physicalCores * cores) threadsPerCore); lia. }
  apply bind_singleton_map.
Qed.

(** X13. With counts that are not negative, [doMakeCPUString] writes one
    entry per processor number from 0 up to the product of the three
    counts, in ascending order, and the entry of number [n] carries
    package [n / threads / cores], core [(n / threads) mod cores] and, in
    its "cpu cores" field, the thread index [n mod threads]. *)
Theorem doMakeCPUString_enumerates
    (tc : Mock.CPU) (physicalCores cores threadsPerCore : Z) :
  0 <= physicalCores -> 0 <= cores -> 0 <= threadsPerCore ->
  Mock.doMakeCPUString tc physicalCores cores threadsPerCore =
    String.concat ""
      (map (entry_at tc cores threadsPerCore)
           (Mock.upto (physicalCores * cores * threadsPerCore))).
Proof. apply doMakeCPUString_cover. Qed.

(** X14. When one of the three counts is zero or negative no loop body
    runs and [doMakeCPUString] gives the empty description. *)
Theorem doMakeCPUString_empty
    (tc : Mock.CPU) (physicalCores cores threadsPerCore : Z) :
  physicalCores <= 0 \/ cores <= 0 \/ threadsPerCore <= 0 ->
  Mock.doMakeCPUString tc physicalCores cores threadsPerCore = "".
Proof.
  intros H. unfold Mock.doMakeCPUString.
  assert (E : (i ← Mock.upto physicalCores; j ← Mock.upto cores;
               k ← Mock.upto threadsPerCore;
               [Mock.entry tc ((i * cores + j) * threadsPerCore + k) i j k])
              = []); [|now rewrite E].
  destruct H as [H | [H | H]].
  - now rewrite (upto_nonpos _ H).
  - rewrite (upto_nonpos _ H). apply bind_nothing.
  - rewrite (upto_nonpos _ H).
    etransitivity; [|apply (bind_nothing (Mock.upto physicalCores))].
    apply bind_ext_in. intros i _. apply bind_nothing.
Qed.

Lemma wrap_int_small intSize z :
  0 < intSize -> - 2 ^ (intSize - 1) <= z < 2 ^ (intSize - 1) ->
  Mock.wrap_int intSize z = z.
Proof.
  intros Hn Hz. unfold Mock.wrap_int.
  replace (2 ^ intSize) with (2 * 2 ^ (intSize - 1)).
  - rewrite Z.mod_small by lia. lia.
  - rewrite <- Z.pow_succ_r by lia. f_equal. lia.
Qed.

(** The product [NumCPUs] computes is the number of processors as long as
    that number fits in an [int]. *)
Lemma NumCPUs_exact intSize tc :
  0 < intSize ->
  0 <= Mock.PhysicalCores tc -> 0 <= Mock.Cores tc ->
  0 <= Mock.ThreadsPerCore tc ->
  Mock.PhysicalCores tc * Mock.Cores tc * Mock.ThreadsPerCore tc
    < 2 ^ (intSize - 1) ->
  Mock.NumCPUs intSize tc
  = Mock.PhysicalCores tc * Mock.Cores tc * Mock.ThreadsPerCore tc.
Proof.
  intros Hn Hp Hc Ht Hb. unfold Mock.NumCPUs, Mock.int_mul.
  assert (H0 : 0 < 2 ^ (intSize - 1)) by (apply Z.pow_pos_nonneg; lia).
  destruct (Z.eq_dec (Mock.ThreadsPerCore tc) 0) as [E|E].
  - rewrite E, !Z.mul_0_r. apply wrap_int_small; lia.
  - rewrite (wrap_int_small intSize (Mock.PhysicalCores tc * Mock.Cores tc))
      by nia.
    apply wrap_int_small; nia.
Qed.

(** X15. For a machine whose counts are not negative and whose number of
    processors fits in an [int], [NumCPUs] is the product of the three
    counts and [MakeCPUString] describes [NumCPUs] processors, numbered
    from 0.  The mitigated description of a machine marked vulnerable has
    one processor per core, numbered from 0 up to packages times cores,
    each with thread index 0; that of a machine not marked vulnerable is
    its plain description. *)
Theorem MakeCPUString_describes_NumCPUs (intSize : Z) (tc : Mock.CPU) :
  0 < intSize ->
  0 <= Mock.PhysicalCores tc -> 0 <= Mock.Cores tc ->
  0 <= Mock.ThreadsPerCore tc ->
  Mock.PhysicalCores tc * Mock.Cores tc * Mock.ThreadsPerCore tc
    < 2 ^ (intSize - 1) ->
  Mock.NumCPUs intSize tc
  = Mock.PhysicalCores tc * Mock.Cores tc * Mock.ThreadsPerCore tc
  /\ Mock.MakeCPUString tc =
       String.concat ""
         (map (entry_at tc (Mock.Cores tc) (Mock.ThreadsPerCore tc))
              (Mock.upto (Mock.NumCPUs intSize tc)))
  /\ length (Mock.upto (Mock.NumCPUs intSize tc))
     = Z.to_nat (Mock.NumCPUs intSize tc)
  /\ Mock.MakeMitigatedCPUString tc =
       (if Mock.IsVulnerable tc then
          String.concat ""
            (map (fun n => Mock.entry tc n (n / Mock.Cores tc)
                                      (n mod Mock.Cores tc) 0)
                 (Mock.upto (Mock.PhysicalCores tc * Mock.Cores tc)))
        else Mock.MakeCPUString tc).
Proof.
  intros Hn Hp Hc Ht Hb.
  rewrite (NumCPUs_exact intSize tc Hn Hp Hc Ht Hb).
  split; [reflexivity|]. split; [|split].
  - unfold Mock.MakeCPUString. now apply doMakeCPUString_cover.
  - unfold Mock.upto. now rewrite length_map, length_seq.
  - unfold Mock.MakeMitigatedCPUString.
    destruct (Mock.IsVulnerable tc); [|reflexivity].
    rewrite doMakeCPUString_cover by lia.
    rewrite Z.mul_1_r. f_equal. apply map_ext. intros n.
    unfold entry_at. now rewrite Z.div_1_r, Z.mod_1_r.
Qed.

(** Beyond that bound the product wraps: with 64-bit integers a machine
    of 2^62 packages of four cores has 2^64 processors and [NumCPUs] is
    0. *)
Lemma NumCPUs_wraps :
  let tc := Mock.mkCPU "" "" 0 0 "" "" (2 ^ 62) 4 1 false in
  Mock.NumCPUs 64 tc = 0
  /\ Mock.PhysicalCores tc * Mock.Cores tc * Mock.ThreadsPerCore tc = 2 ^ 64.
Proof. split; vm_compute; reflexivity. Qed.

(** ** Runs on regular files *)

Section RegularFiles.
Context {P : MitigatePkg}.

Lemma select_action_result m filePath cpuSet w :
  (select_action m filePath cpuSet w).1 = None <->
  must_write m (IsVulnerable cpuSet) && negb (accepts filePath w) = false.
Proof.
  rewrite select_action_cases. unfold must_write.
  destruct (dryRun m); simpl; [split; reflexivity|].
  destruct (reverse m); simpl.
  - rewrite doReverse_run. unfold wrap. simpl.
    pose proof (doEnableDisable_result filePath "on" w) as R.
    destruct (doEnableDisable filePath "on" w).1 as [e|],
             (accepts filePath w); simpl.
    + discriminate (proj2 R eq_refl).
    + split; discriminate.
    + split; reflexivity.
    + discriminate (proj1 R eq_refl).
  - destruct (IsVulnerable cpuSet) eqn:Hv; simpl.
    + rewrite (doMitigate_vulnerable _ _ _ Hv). unfold wrap. simpl.
      pose proof (doEnableDisable_result filePath "off"
                    (emit EvIsVulnerable w)) as R.
      rewrite accepts_emit in R.
      destruct (doEnableDisable filePath "off" (emit EvIsVulnerable w)).1
        as [e|], (accepts filePath w); simpl.
      * discriminate (proj2 R eq_refl).
      * split; discriminate.
      * split; reflexivity.
      * discriminate (proj1 R eq_refl).
    + rewrite (doMitigate_safe _ _ _ Hv). split; reflexivity.
Qed.

(** The exit status of a run whose control file is not its topology
    file. *)
Lemma doExecute_status_regular m cpuInfoPath smtFilePath w :
  cpuInfoPath <> smtFilePath ->
  (doExecute m cpuInfoPath smtFilePath w).1 =
    match (getCPUSet cpuInfoPath w).1 with
    | inr _ => ExitFailure
    | inl cpuSet =>
        if must_write m (IsVulnerable cpuSet)
           && negb (accepts smtFilePath w)
        then ExitFailure
        else match postMitigate m cpuSet with
             | Some _ => ExitFailure
             | None => ExitSuccess
             end
    end.
Proof.
  intros Hne.
  pose proof (getCPUSet_result cpuInfoPath w) as R.
  destruct (getCPUSet_keeps cpuInfoPath w) as [F1 N1].
  destruct (getCPUSet_process cpuInfoPath w) as [_ R1].
  destruct (getCPUSet cpuInfoPath w) as [[cpuSet|err] w1] eqn:Hb;
    simpl in R, F1, N1, R1 |- *.
  - rewrite (doExecute_after_before _ _ _ _ _ _ Hb).
    pose proof (select_action_result m smtFilePath cpuSet
                  (before_action cpuSet w1)) as S.
    assert (A1 : accepts smtFilePath (before_action cpuSet w1)
                 = accepts smtFilePath w).
    { unfold before_action. rewrite !accepts_emit.
      now apply accepts_same. }
    rewrite A1 in S.
    destruct (frames_select_action m smtFilePath cpuSet
                (before_action cpuSet w1)) as [F2 _].
    destruct (select_action_process m smtFilePath cpuSet
                (before_action cpuSet w1)) as [_ R2].
    destruct (select_action m smtFilePath cpuSet (before_action cpuSet w1))
      as [[e|] w2]; simpl in S, F2, R2.
    + destruct (must_write m (IsVulnerable cpuSet)
                && negb (accepts smtFilePath w)); [reflexivity|].
      destruct S as [_ S]. discriminate (S eq_refl).
    + rewrite (proj1 S eq_refl).
      rewrite after_steps_status, getCPUSet_result.
      rewrite (F2 cpuInfoPath Hne). unfold before_action, may_read in *.
      simpl. rewrite R2. simpl. rewrite F1, R1, <- R. reflexivity.
  - now rewrite (doExecute_before_failed _ _ _ _ _ _ Hb).
Qed.

(** X16. The exit status of a run whose control file is a file other than
    its topology file: success exactly when the topology file is read and
    parsed, the action has nothing to write or the system lets its write
    through, and the post-mitigate check accepts the set; failure
    otherwise. *)
Theorem doExecute_succeeds_iff
    (m : Mitigate) (cpuInfoPath smtFilePath : string) (w : World) :
  cpuInfoPath <> smtFilePath ->
  ((doExecute m cpuInfoPath smtFilePath w).1 = ExitSuccess <->
     exists cpuSet : CPUSet,
       (getCPUSet cpuInfoPath w).1 = inl cpuSet
       /\ (must_write m (IsVulnerable cpuSet) = false
           \/ accepts smtFilePath w = true)
       /\ postMitigate m cpuSet = None)
  /\ ((doExecute m cpuInfoPath smtFilePath w).1 <> ExitSuccess ->
      (doExecute m cpuInfoPath smtFilePath w).1 = ExitFailure).
Proof.
  intros Hne. rewrite (doExecute_status_regular _ _ _ _ Hne).
  destruct (getCPUSet cpuInfoPath w).1 as [cpuSet|err].
  - destruct (must_write m (IsVulnerable cpuSet)) eqn:Hm,
             (accepts smtFilePath w) eqn:Ha,
             (postMitigate m cpuSet) eqn:Hp; simpl;
      (split; [split; [try discriminate; intros _; exists cpuSet; auto|]
              |try reflexivity; try (intros H; contradiction)]);
      intros (c & H & Hw & Hq); inversion H; subst;
      try congruence; destruct Hw; congruence.
  - split; [|reflexivity]. split; [discriminate|].
    intros (c & H & _). discriminate H.
Qed.

Lemma write_at_twice a old :
  write_at 0 a (write_at 0 a old) = write_at 0 a old.
Proof. rewrite !write_at_start. now rewrite string_drop_append. Qed.

Lemma accepts_after filePath action w :
  reopens filePath w = true ->
  accepts filePath (doEnableDisable filePath action w).2 = accepts filePath w.
Proof.
  intros Hr. unfold accepts at 1.
  rewrite doEnableDisable_files, doEnableDisable_nocreate.
  destruct (accepts filePath w) eqn:A.
  - unfold files_written. rewrite lookup_insert_eq.
    unfold accepts in A. unfold reopens in Hr.
    unfold may_write, owner_w in *. cbn [fmode fwerr] in *.
    rewrite (proj2 (doEnableDisable_process _ _ _)).
    destruct (files w !! filePath) as [f|].
    + apply andb_prop in A as [A _]. rewrite A. reflexivity.
    + rewrite Hr. reflexivity.
  - unfold accepts, may_write in *.
    now rewrite (proj2 (doEnableDisable_process _ _ _)).
Qed.

(** The files after a second write of the same string are those after the
    first. *)
Lemma doEnableDisable_again filePath action w :
  reopens filePath w = true ->
  files (doEnableDisable filePath action
           (doEnableDisable filePath action w).2).2
  = files (doEnableDisable filePath action w).2.
Proof.
  intros Hr.
  rewrite (doEnableDisable_files filePath action
             (doEnableDisable filePath action w).2).
  rewrite (accepts_after _ _ _ Hr).
  destruct (accepts filePath w) eqn:A; [|reflexivity].
  unfold files_written at 1. unfold old_bytes at 1. unfold contents at 1.
  rewrite !doEnableDisable_files, A. unfold files_written at 1 2 3.
  rewrite insert_insert_eq, !lookup_insert_eq.
  simpl. now rewrite write_at_twice.
Qed.

End RegularFiles.

Section Again.
Context {P : MitigatePkg}.

Lemma doExecute_nocreate m cpuInfoPath smtFilePath w :
  nocreate (doExecute m cpuInfoPath smtFilePath w).2 = nocreate w.
Proof.
  destruct (getCPUSet_keeps cpuInfoPath w) as [F1 N1].
  destruct (getCPUSet cpuInfoPath w) as [[beforeSet|err] w1] eqn:Hb;
    simpl in F1, N1.
  - rewrite (doExecute_after_before _ _ _ _ _ _ Hb).
    pose proof (select_action_nocreate m smtFilePath beforeSet
                  (before_action beforeSet w1)) as N2.
    destruct (select_action m smtFilePath beforeSet
                (before_action beforeSet w1)) as [[err|] w2];
      simpl in N2 |- *; [now rewrite N2|].
    destruct (quiet_after_steps m cpuInfoPath w2) as (_ & N3 & _).
    now rewrite N3, N2.
  - now rewrite (doExecute_before_failed _ _ _ _ _ _ Hb).
Qed.

Lemma doExecute_process m cpuInfoPath smtFilePath w :
  umask (doExecute m cpuInfoPath smtFilePath w).2 = umask w
  /\ root (doExecute m cpuInfoPath smtFilePath w).2 = root w.
Proof.
  destruct (getCPUSet_process cpuInfoPath w) as [U1 R1].
  destruct (getCPUSet cpuInfoPath w) as [[beforeSet|err] w1] eqn:Hb;
    simpl in U1, R1.
  - rewrite (doExecute_after_before _ _ _ _ _ _ Hb).
    destruct (select_action_process m smtFilePath beforeSet
                (before_action beforeSet w1)) as [U2 R2].
    destruct (select_action m smtFilePath beforeSet
                (before_action beforeSet w1)) as [[err|] w2];
      simpl in U2, R2 |- *; [split; congruence|].
    destruct (after_steps_process m cpuInfoPath w2) as [U3 R3].
    split; congruence.
  - rewrite (doExecute_before_failed _ _ _ _ _ _ Hb). simpl. auto.
Qed.

Lemma doEnableDisable_files_same p a w w' :
  files w' = files w -> nocreate w' = nocreate w ->
  umask w' = umask w -> root w' = root w ->
  files (doEnableDisable p a w').2 = files (doEnableDisable p a w).2.
Proof.
  intros F N U R. rewrite !doEnableDisable_files.
  rewrite (accepts_same _ _ _ F N R).
  unfold files_written, created_mode, old_bytes, contents.
  now rewrite F, U.
Qed.

(** X17. Running the command a second time, on a control file other than
    the topology file and with the topology file as it was, gives the exit
    status of the first run and leaves every file as the first run left
    it: the second write, when there is one, writes the same bytes over
    the same place.  This needs the control file to be one the process can
    open again: a control file the first run had to create with a mask
    that clears the owner's write bit is closed to the second run of a
    process that is not root. *)
Theorem doExecute_twice
    (m : Mitigate) (cpuInfoPath smtFilePath : string) (w : World) :
  cpuInfoPath <> smtFilePath ->
  reopens smtFilePath w = true ->
  let first := doExecute m cpuInfoPath smtFilePath w in
  let second := doExecute m cpuInfoPath smtFilePath first.2 in
  second.1 = first.1 /\ files second.2 = files first.2.
Proof.
  intros Hne Hr first second.
  pose proof (doExecute_files m cpuInfoPath smtFilePath w) as F1.
  pose proof (doExecute_nocreate m cpuInfoPath smtFilePath w) as N1.
  destruct (doExecute_process m cpuInfoPath smtFilePath w) as [U1 R1].
  fold first in F1, N1, U1, R1.
  set (a := if reverse m then "on" else "off") in *.
  destruct (doEnableDisable_process smtFilePath a w) as [Ua Ra].
  assert (G : (getCPUSet cpuInfoPath first.2).1
              = (getCPUSet cpuInfoPath w).1).
  { rewrite !getCPUSet_result. unfold may_read. rewrite R1.
    replace (files first.2 !! cpuInfoPath) with (files w !! cpuInfoPath);
      [reflexivity|].
    rewrite F1.
    destruct (getCPUSet cpuInfoPath w).1 as [c|]; [|reflexivity].
    destruct (must_write m (IsVulnerable c)); [|reflexivity].
    symmetry. now apply frames_doEnableDisable. }
  split.
  - unfold second, first at 2.
    rewrite !(doExecute_status_regular _ _ _ _ Hne). fold first. rewrite G.
    destruct (getCPUSet cpuInfoPath w).1 as [c|]; [|reflexivity].
    destruct (must_write m (IsVulnerable c)).
    + simpl. fold a.
      rewrite (accepts_same smtFilePath (doEnableDisable smtFilePath a w).2
                 first.2).
      * now rewrite accepts_after.
      * exact F1.
      * now rewrite N1, doEnableDisable_nocreate.
      * congruence.
    + reflexivity.
  - unfold second. rewrite doExecute_files, G.
    destruct (getCPUSet cpuInfoPath w).1 as [c|]; [|reflexivity].
    destruct (must_write m (IsVulnerable c)); [|reflexivity].
    rewrite F1. fold a.
    rewrite (doEnableDisable_files_same smtFilePath _
               (doEnableDisable smtFilePath a w).2 first.2).
    + now apply doEnableDisable_again.
    + exact F1.
    + now rewrite N1, doEnableDisable_nocreate.
    + congruence.
    + congruence.
Qed.

(** X18. Forward then reverse, and reverse then forward, on one control
    file.  After a successful forward action on a vulnerable set and a
    successful reverse action, the file holds "onf" followed by whatever
    it held beyond its third byte, not "on"; after a successful reverse
    action and a successful forward action on a vulnerable set it holds
    "off" followed by whatever it held beyond its third byte. *)
Theorem forward_then_reverse
    (filePath : string) (cpuSet cpuSet' : CPUSet) (w w1 w2 : World) :
  IsVulnerable cpuSet = true ->
  (doMitigate filePath cpuSet w = (None, w1) ->
   doReverse filePath cpuSet' w1 = (None, w2) ->
   contents filePath w2
   = Some ("onf" +:+ string_drop 3 (old_bytes filePath w)))
  /\ (doReverse filePath cpuSet' w = (None, w1) ->
      doMitigate filePath cpuSet w1 = (None, w2) ->
      contents filePath w2
      = Some ("off" +:+ string_drop 3 (old_bytes filePath w))).
Proof.
  intros Hv.
  assert (D : forall a u u',
             wrap a (doEnableDisable filePath "off" u) = (None, u') ->
             doEnableDisable filePath "off" u = (None, u')).
  { intros a u u'. unfold wrap.
    destruct (doEnableDisable filePath "off" u) as [[e|] u0]; simpl;
      intros H; inversion H; reflexivity. }
  assert (R : forall a u u',
             wrap a (doEnableDisable filePath "on" u) = (None, u') ->
             doEnableDisable filePath "on" u = (None, u')).
  { intros a u u'. unfold wrap.
    destruct (doEnableDisable filePath "on" u) as [[e|] u0]; simpl;
      intros H; inversion H; reflexivity. }
  split.
  - rewrite (doMitigate_vulnerable _ _ _ Hv), doReverse_run.
    intros H1 H2. apply D in H1. apply R in H2.
    pose proof (doEnableDisable_success_contents _ _ _ _ H1) as C1.
    pose proof (doEnableDisable_success_contents _ _ _ _ H2) as C2.
    unfold old_bytes at 1 in C2. rewrite C1 in C2. simpl default in C2.
    rewrite C2. f_equal.
    change (old_bytes filePath (emit EvIsVulnerable w))
      with (old_bytes filePath w).
    rewrite (string_drop_append_long 2 "off") by (simpl; lia).
    reflexivity.
  - rewrite doReverse_run, (doMitigate_vulnerable _ _ _ Hv).
    intros H1 H2. apply R in H1. apply D in H2.
    pose proof (doEnableDisable_success_contents _ _ _ _ H1) as C1.
    pose proof (doEnableDisable_success_contents _ _ _ _ H2) as C2.
    unfold old_bytes at 1 in C2.
    change (contents filePath (emit EvIsVulnerable w1))
      with (contents filePath w1) in C2.
    rewrite C1 in C2. simpl default in C2. rewrite C2. f_equal. f_equal.
    rewrite (string_drop_append_short "on" _ 3) by (simpl; lia).
    rewrite string_drop_drop. reflexivity.
Qed.

End Again.

(** ** What a failed write reports *)


Lemma mentions_here pre s post : mentions s (pre +:+ s +:+ post).
Proof. now exists pre, post. Qed.








Section FailedWrite.
Context {P : MitigatePkg}.



End FailedWrite.

(** ** The further properties on the test host *)

(** X2 on the test host: a control file the process may not write still
    holds "on" after the failed write of "off". *)
Lemma doEnableDisable_failure_keeps_files_witness :
  files (doEnableDisable test_smt "off"
           (host vulnerable_text "on" perm_0444)).2 !! test_smt
  = Some (mkFile "on" perm_0444 None).
Proof.
  apply (doEnableDisable_failure_keeps_files test_smt "off"
           (host vulnerable_text "on" perm_0444)
           (open_failure (PathError "open" test_smt EACCES))).
  - vm_compute. reflexivity.
  - apply host_smt.
Defined.

(** X3 on the test host: "off" over "on" gives three bytes. *)
Lemma doEnableDisable_never_shortens_witness :
  exists bytes : string,
    contents test_smt
      (doEnableDisable test_smt "off" (host vulnerable_text "on" perm_0600)).2
    = Some bytes
    /\ String.length bytes = 3%nat.
Proof.
  destruct (doEnableDisable_never_shortens test_smt "off"
              (host vulnerable_text "on" perm_0600)
              (doEnableDisable test_smt "off"
                 (host vulnerable_text "on" perm_0600)).2)
    as (bytes & C & L).
  - vm_compute. reflexivity.
  - exists bytes. split; [exact C|]. rewrite L. vm_compute. reflexivity.
Defined.

(** X4 on the test host: "off" then "on" over "on" leaves "onf". *)
Lemma doEnableDisable_twice_witness :
  let w1 := (doEnableDisable test_smt "off"
               (host vulnerable_text "on" perm_0600)).2 in
  let w2 := (doEnableDisable test_smt "on" w1).2 in
  contents test_smt w2 = Some "onf".
Proof.
  intros w1 w2.
  destruct (doEnableDisable_twice test_smt "off" "on"
              (host vulnerable_text "on" perm_0600) w1 w2)
    as (_ & _ & _ & H).
  - vm_compute. reflexivity.
  - vm_compute. reflexivity.
  - rewrite H by (vm_compute; lia). vm_compute. reflexivity.
Defined.

(** X13 on the four-thread machine. *)
Lemma doMakeCPUString_enumerates_witness :
  Mock.doMakeCPUString Mock.CascadeLake4 1 2 2 =
    String.concat ""
      (map (entry_at Mock.CascadeLake4 2 2) (Mock.upto (1 * 2 * 2))).
Proof.
  apply (doMakeCPUString_enumerates Mock.CascadeLake4 1 2 2); lia.
Defined.

(** X14 with no package. *)
Lemma doMakeCPUString_empty_witness :
  Mock.doMakeCPUString Mock.CascadeLake4 0 2 2 = "".
Proof.
  apply (doMakeCPUString_empty Mock.CascadeLake4 0 2 2). left. lia.
Defined.

(** X15 on the four-thread machine, which is marked vulnerable. *)
Lemma MakeCPUString_describes_NumCPUs_witness :
  Mock.NumCPUs 64 Mock.CascadeLake4 = 4
  /\ Mock.MakeMitigatedCPUString Mock.CascadeLake4 =
       String.concat ""
         (map (fun n => Mock.entry Mock.CascadeLake4 n (n / 2) (n mod 2) 0)
              (Mock.upto 2)).
Proof.
  destruct (MakeCPUString_describes_NumCPUs 64 Mock.CascadeLake4)
    as (N & _ & _ & M); try (simpl; lia).
  split; [rewrite N; reflexivity | exact M].
Defined.

(** X16 on the test host: the forward run on the vulnerable description
    succeeds. *)
Lemma doExecute_succeeds_iff_witness :
  (doExecute (P := specPkg) forward test_cpuinfo test_smt
     (host vulnerable_text "on" perm_0600)).1 = ExitSuccess.
Proof.
  refine (proj2 (proj1 (doExecute_succeeds_iff (P := specPkg) forward
            test_cpuinfo test_smt (host vulnerable_text "on" perm_0600) _)) _).
  - apply String.eqb_neq. reflexivity.
  - exists (parsed vulnerable_text).
    split; [vm_compute; reflexivity|].
    split; [right; vm_compute; reflexivity | reflexivity].
Defined.

(** X17 on the test host. *)
Lemma doExecute_twice_witness :
  let first := doExecute (P := specPkg) forward test_cpuinfo test_smt
                 (host vulnerable_text "on" perm_0600) in
  let second := doExecute (P := specPkg) forward test_cpuinfo test_smt
                  first.2 in
  second.1 = first.1 /\ files second.2 = files first.2.
Proof.
  apply (doExecute_twice (P := specPkg) forward test_cpuinfo test_smt
           (host vulnerable_text "on" perm_0600)).
  - apply String.eqb_neq. reflexivity.
  - vm_compute. reflexivity.
Defined.

(** Where the precondition of X17 fails: with no control file and a mask
    that clears the owner's write bit, the first forward run creates the
    control file and succeeds, and the second cannot open it. *)
Lemma doExecute_twice_created_read_only :
  let w := host_without_control vulnerable_text mask_222 in
  let first := doExecute (P := specPkg) forward test_cpuinfo test_smt w in
  let second := doExecute (P := specPkg) forward test_cpuinfo test_smt
                  first.2 in
  reopens test_smt w = false
  /\ first.1 = ExitSuccess /\ second.1 = ExitFailure
  /\ (doExecute (P := specPkg) forward test_cpuinfo test_smt
        (as_root first.2)).1 = ExitSuccess.
Proof. repeat split; vm_compute; reflexivity. Qed.

(** X18 on the test host: mitigate, then reverse, and the control file
    that held "on" holds "onf". *)
Lemma forward_then_reverse_witness :
  let w := host vulnerable_text "on" perm_0600 in
  let w1 := (doMitigate (P := specPkg) test_smt (parsed vulnerable_text) w).2 in
  let w2 := (doReverse (P := specPkg) test_smt (parsed vulnerable_text) w1).2 in
  contents test_smt w2 = Some "onf".
Proof.
  intros w w1 w2.
  destruct (forward_then_reverse (P := specPkg) test_smt
              (parsed vulnerable_text) (parsed vulnerable_text) w w1 w2)
    as [H _].
  - vm_compute. reflexivity.
  - rewrite H; vm_compute; reflexivity.
Defined.


(** Permission bits do not stop root: on the same host a process that runs
    as root opens the read-only control file and writes it. *)
Lemma doEnableDisable_as_root :
  let w := as_root (host vulnerable_text "on" perm_0444) in
  (doEnableDisable test_smt "off" w).1 = None
  /\ files (doEnableDisable test_smt "off" w).2 !! test_smt
     = Some (mkFile "off" perm_0444 None).
Proof. split; vm_compute; reflexivity. Qed.
